(** * Combining plotly figures into one HTML file

    A shallow embedding of the three functions of
    [notebooks/multiple_plotly_figs_to_html_file.ipynb]:
    [combine_plotly_figs_to_html], [convert_logo] and [add_html_header],
    together with the part of the Python runtime they touch (text and binary
    files, figure objects held by reference, exceptions). *)

From Stdlib Require Import ZArith NArith Strings.String Strings.Ascii Strings.Byte.
From stdpp Require Import gmap strings list fin_maps.

(** ** Python values

    A Python [str] is a Rocq [string] and a [bytes] object a [list byte]; a
    character of a Rocq string is one byte, so a file's content is the
    string of its bytes.  Objects that are passed by reference (the figures)
    live in a heap and are named by locations. *)

Definition loc := positive.

Inductive Exn :=
| FileNotFoundError (path : string)
| PermissionError (path : string)
| IsADirectoryError (path : string)
| AttributeError (obj : loc)
| ValueError (msg : string)
| UnicodeDecodeError (pos : nat)
| IndexError (index : nat)
| OSError (msg : string)
| LibraryError (msg : string).

Inductive result (A : Type) :=
| Ok (a : A)
| Raise (e : Exn).
Arguments Ok {A} a.
Arguments Raise {A} e.

(** ** Figures: the part of a plotly figure the notebook depends on

    [fig.update_layout(height=h)] sets the layout height of the object in
    place; everything else of the figure is the opaque [fig_data]. *)

Record Figure := mkFigure {
  fig_data : string;
  layout_height : option Z
}.

Definition with_height (f : Figure) (h : Z) : Figure :=
  {| fig_data := fig_data f; layout_height := Some h |}.

(** The value of the [include_plotlyjs] argument of [to_html]. *)
Inductive IncludeJs :=
| JsCdn
| JsDirectory
| JsInline
| JsBool (b : bool)
| JsUrl (url : string).

(** What the notebook calls and does not define: plotly's [to_html], the
    validation plotly applies to a layout height, and
    [pathlib.Path(p).absolute().as_uri()].  A library call either returns
    or raises. *)
Class Library := {
  to_html : Figure -> bool -> IncludeJs -> result string;
  validate_height : Z -> option Exn;
  absolute_uri : string -> string
}.

(** ** The world: files, the object heap, and the trace of calls

    [read_fault] and [write_fault] give, for the paths that cannot be read
    or written, the native error and the call that raises it: [open]
    (permissions, a directory in the way, ...) or the [read] or [write] on
    the open file (an I/O error, a full disk).  [events] records, in order,
    every call the notebook makes into the runtime and into plotly, with its
    outcome; the browser is only visible there. *)

Inductive Fault :=
| AtOpen (e : Exn)
| AtIO (e : Exn).

Inductive Mode := ModeReadBinary | ModeReadText | ModeWrite.

Inductive Event :=
| EvOpen (path : string) (mode : Mode) (err : option Exn)
| EvRead (path : string) (r : result string)
| EvWrite (path : string) (s : string) (err : option Exn)
| EvUpdateLayout (fig : loc) (height : Z) (err : option Exn)
| EvToHtml (fig : loc) (state : option Figure) (full_html : bool)
    (include_plotlyjs : IncludeJs) (r : result string)
| EvBrowser (uri : string).

Record World := mkWorld {
  files : gmap string string;
  read_fault : gmap string Fault;
  write_fault : gmap string Fault;
  heap : gmap loc Figure;
  events : list Event
}.

Definition set_files (w : World) (fs : gmap string string) : World :=
  {| files := fs; read_fault := read_fault w; write_fault := write_fault w;
     heap := heap w; events := events w |}.

Definition set_heap (w : World) (h : gmap loc Figure) : World :=
  {| files := files w; read_fault := read_fault w; write_fault := write_fault w;
     heap := h; events := events w |}.

Definition log (w : World) (ev : Event) : World :=
  {| files := files w; read_fault := read_fault w; write_fault := write_fault w;
     heap := heap w; events := events w ++ [ev] |}.

(** ** Computations that may raise and change the world

    An exception leaves the changes made so far in place (a file opened for
    writing stays truncated, a figure already updated stays updated). *)

Definition M (A : Type) : Type := World -> result A * World.

Definition ret {A} (a : A) : M A := fun w => (Ok a, w).

Definition bind {A B} (m : M A) (k : A -> M B) : M B :=
  fun w => match m w with
           | (Ok a, w') => k a w'
           | (Raise e, w') => (Raise e, w')
           end.

Definition throw {A} (e : Exn) : M A := fun w => (Raise e, w).

Definition lift {A} (r : result A) : M A := fun w => (r, w).

Notation "x <- m ;; k" := (bind m (fun x => k))
  (at level 100, m at next level, right associativity).
Notation "m ;;; k" := (bind m (fun _ => k))
  (at level 100, right associativity).

(** ** Files *)

(** [open(path, mode)] for reading, then [read()]: the whole content. *)
Definition read_file (path : string) (mode : Mode) : M string :=
  fun w => match read_fault w !! path, files w !! path with
           | Some (AtOpen e), _ => (Raise e, log w (EvOpen path mode (Some e)))
           | _, None =>
               let e := FileNotFoundError path in
               (Raise e, log w (EvOpen path mode (Some e)))
           | Some (AtIO e), Some _ =>
               (Raise e, log (log w (EvOpen path mode None)) (EvRead path (Raise e)))
           | None, Some c =>
               (Ok c, log (log w (EvOpen path mode None)) (EvRead path (Ok c)))
           end.

(** [open(path, "rb")] and [image_file.read()]. *)
Definition read_bytes (path : string) : M (list byte) :=
  c <- read_file path ModeReadBinary ;; ret (list_byte_of_string c).

(** [open(path, "r", errors="ignore")] and [f.read()].  The text of a file
    has its bytes as characters, so there is nothing for the decoder to
    ignore. *)
Definition read_text (path : string) : M string :=
  read_file path ModeReadText.

(** [open(path, "w")]: creates or truncates the file. *)
Definition open_write (path : string) : M unit :=
  fun w => match write_fault w !! path with
           | Some (AtOpen e) => (Raise e, log w (EvOpen path ModeWrite (Some e)))
           | _ =>
               (Ok tt, log (set_files w (<[path := EmptyString]> (files w)))
                           (EvOpen path ModeWrite None))
           end.

(** [f.write(s)] on the handle of [path]: appends. *)
Definition write (path : string) (s : string) : M unit :=
  fun w => match write_fault w !! path with
           | Some (AtIO e) => (Raise e, log w (EvWrite path s (Some e)))
           | _ =>
               let old := default EmptyString (files w !! path) in
               (Ok tt, log (set_files w (<[path := old +:+ s]> (files w)))
                           (EvWrite path s None))
           end.

(** ** base64 and UTF-8, as far as [convert_logo] uses them *)

Definition b64_alphabet : string :=
  "ABCDEFGHIJKLMNOPQRSTUVWXYZabcdefghijklmnopqrstuvwxyz0123456789+/".

Definition b64_pad : byte := "="%byte.

Definition b64_digit (n : N) : byte :=
  match String.get (N.to_nat n) b64_alphabet with
  | Some c => byte_of_ascii c
  | None => b64_pad
  end.

(** [base64.b64encode] (RFC 4648): three bytes become four digits of six
    bits each; a last group of one or two bytes is padded with [=]. *)
Fixpoint b64encode (bs : list byte) : list byte :=
  match bs with
  | [] => []
  | [a] =>
      let a := Byte.to_N a in
      [b64_digit (a / 4); b64_digit (a mod 4 * 16); b64_pad; b64_pad]
  | [a; b] =>
      let a := Byte.to_N a in
      let b := Byte.to_N b in
      [b64_digit (a / 4); b64_digit (a mod 4 * 16 + b / 16);
       b64_digit (b mod 16 * 4); b64_pad]
  | a :: b :: c :: rest =>
      let a := Byte.to_N a in
      let b := Byte.to_N b in
      let c := Byte.to_N c in
      b64_digit (a / 4) :: b64_digit (a mod 4 * 16 + b / 16)
        :: b64_digit (b mod 16 * 4 + c / 64) :: b64_digit (c mod 64)
        :: b64encode rest
  end%N.

(** [bytes.decode("utf-8")] on its ASCII fragment, where the text has the
    bytes as its characters.  A model [str] has one-byte characters only, so
    a byte above 0x7f is reported as undecodable; [b64encode] produces
    none. *)
Fixpoint decode_utf8_from (pos : nat) (bs : list byte) : result string :=
  match bs with
  | [] => Ok EmptyString
  | b :: rest =>
      if (Byte.to_N b <? 128)%N then
        match decode_utf8_from (S pos) rest with
        | Ok s => Ok (String (ascii_of_byte b) s)
        | Raise e => Raise e
        end
      else Raise (UnicodeDecodeError pos)
  end.

Definition decode_utf8 (bs : list byte) : result string := decode_utf8_from 0 bs.

(** The decoder of RFC 4648, the inverse of [b64encode]; it serves to say
    that the payload of the data URI loses nothing of the image. *)
Fixpoint index_of (c : ascii) (s : string) : option N :=
  match s with
  | EmptyString => None
  | String c' s' => if Ascii.eqb c c' then Some 0%N else N.succ <$> index_of c s'
  end.

Definition b64_value (d : byte) : option N := index_of (ascii_of_byte d) b64_alphabet.

Fixpoint b64decode (ds : list byte) : option (list byte) :=
  match ds with
  | [] => Some []
  | d1 :: d2 :: d3 :: d4 :: rest =>
      v1 ← b64_value d1;
      v2 ← b64_value d2;
      b1 ← Byte.of_N (v1 * 4 + v2 / 16);
      if Byte.eqb d3 b64_pad then
        match Byte.eqb d4 b64_pad, rest with
        | true, [] => Some [b1]
        | _, _ => None
        end
      else
        v3 ← b64_value d3;
        b2 ← Byte.of_N (v2 mod 16 * 16 + v3 / 4);
        if Byte.eqb d4 b64_pad then
          match rest with
          | [] => Some [b1; b2]
          | _ => None
          end
        else
          v4 ← b64_value d4;
          b3 ← Byte.of_N (v3 mod 4 * 64 + v4);
          bs ← b64decode rest;
          Some (b1 :: b2 :: b3 :: bs)
  | _ => None
  end%N.

(** What the proofs check of each of the 64 digits: it has its value, is
    not the padding, and is ASCII. *)
Definition digit_ok (n : N) : bool :=
  match b64_value (b64_digit n) with
  | Some m => (m =? n)%N && negb (Byte.eqb (b64_digit n) b64_pad)
              && (Byte.to_N (b64_digit n) <? 128)%N
  | None => false
  end.

(** ** [convert_logo] *)

Definition convert_logo (file_location : string) : M string :=
  let logo_path := file_location in
  image <- read_bytes logo_path ;;
  base64_logo <- lift (decode_utf8 (b64encode image)) ;;
  let logo_data := "data:image/png;base64," +:+ base64_logo in
  ret logo_data.

(** ** [add_html_header] *)

Definition dq : string := String "034" EmptyString.
Definition nl : string := String "010" EmptyString.
Definition join_lines (ls : list string) : string := String.concat nl ls.

(** The f-string of the header: the text between the triple quotes, with
    [{{] and [}}] read as braces and [{logo}], [{title}] filled in. *)
Definition html_content (logo title : string) : string :=
  join_lines [
    "";
    "    <html>";
    "        <head>";
    "            <meta name=" +:+ dq +:+ "viewport" +:+ dq +:+ " content=" +:+ dq +:+ "width=device-width, initial-scale=1" +:+ dq +:+ ">";
    "            <style>";
    "                * {";
    "                box-sizing: border-box;";
    "                }";
    "";
    "                .column {";
    "                float: left;";
    "                padding: 10px;";
    "                }";
    "";
    "                .left, .right {";
    "                width: 25%;";
    "                }";
    "";
    "                .middle {";
    "                width: 50%;";
    "                }";
    "";
    "                .row:after {";
    "                content: " +:+ dq +:+ dq +:+ ";";
    "                display: table;";
    "                clear: both;";
    "                }";
    "";
    "                body {";
    "                    font-family: Calibri, sans-serif;";
    "                }";
    "";
    "                .header {";
    "                    background-color: #f8f9fa;";
    "                    padding: 10px 20px;";
    "                    display: flex;";
    "                    align-items: center;";
    "                    border-bottom: 1px solid #ddd;";
    "                }";
    "";
    "                .header img {";
    "                    height: 40px;";
    "                    margin-right: 20px;";
    "                }";
    "";
    "                .header h1 {";
    "                    margin: 0;";
    "                    font-size: 24px;";
    "                }";
    "";
    "                .content {";
    "                    padding: 20px;";
    "                }";
    "";
    "                .result {";
    "                    margin-bottom: 40px;";
    "                }";
    "";
    "                .result h2 {";
    "                    font-size: 20px;";
    "                    margin-bottom: 10px;";
    "                }";
    "";
    "                .result img {";
    "                    max-width: 100%;";
    "                    height: auto;";
    "                    display: block;";
    "                    margin-bottom: 10px;";
    "                }";
    "";
    "                hr {";
    "                    border: none;";
    "                    border-top: 1px solid #ddd;";
    "                    margin: 20px 0;";
    "                }";
    "            </style>";
    "        </head>";
    "        <body>";
    "            <div class=" +:+ dq +:+ "header" +:+ dq +:+ ">";
    "                <img src=" +:+ dq +:+ logo +:+ dq +:+ " alt=" +:+ dq +:+ "Logo" +:+ dq +:+ ">";
    "                <h1>" +:+ title +:+ "</h1>";
    "            </div>";
    "            <div class=" +:+ dq +:+ "content" +:+ dq +:+ ">";
    "    "
  ].

Definition add_html_header (html_file : string) (logo : string) (title : string) : M unit :=
  let html_content := html_content logo title in
  plotly_html <- read_text html_file ;;
  open_write html_file ;;;
  write html_file (html_content +:+ plotly_html).

(** ** [combine_plotly_figs_to_html] *)

(** Truth value of an optional list ([None] and [[]] are false) and of an
    optional string ([None] and the empty string are false). *)
Definition truthy_list {A} (l : option (list A)) : bool :=
  match l with Some (_ :: _) => true | _ => false end.

Definition truthy_str (s : option string) : bool :=
  match s with Some (String _ _) => true | _ => false end.

(** [len(heights)] and [heights[i]], reached only for a list. *)
Definition py_len {A} (l : option (list A)) : nat := length (default [] l).

Definition py_index {A} (l : option (list A)) (i : nat) : M A :=
  match default [] l !! i with
  | Some a => ret a
  | None => throw (IndexError i)
  end.

Section Notebook.
Context `{Library}.

(** [fig.update_layout(height=h)]: validates, then mutates the object.  An
    object that is no figure has none of the methods the loop calls. *)
Definition update_layout (fig : loc) (h : Z) : M unit :=
  fun w => match heap w !! fig with
           | None =>
               let e := AttributeError fig in
               (Raise e, log w (EvUpdateLayout fig h (Some e)))
           | Some f =>
               match validate_height h with
               | Some e => (Raise e, log w (EvUpdateLayout fig h (Some e)))
               | None =>
                   (Ok tt, log (set_heap w (<[fig := with_height f h]> (heap w)))
                               (EvUpdateLayout fig h None))
               end
           end.

(** [fig.to_html(full_html=..., include_plotlyjs=...)] *)
Definition fig_to_html (fig : loc) (full_html : bool) (include_plotlyjs : IncludeJs) : M string :=
  fun w => match heap w !! fig with
           | None =>
               let r := Raise (AttributeError fig) in
               (r, log w (EvToHtml fig None full_html include_plotlyjs r))
           | Some f =>
               let r := to_html f full_html include_plotlyjs in
               (r, log w (EvToHtml fig (Some f) full_html include_plotlyjs r))
           end.

(** [webbrowser.open(uri)] *)
Definition webbrowser_open (uri : string) : M unit :=
  fun w => (Ok tt, log w (EvBrowser uri)).

(** The body of the [for i, fig in enumerate(plotly_figs)] loop. *)
Definition loop_body (html_fname : string) (include_plotlyjs : IncludeJs)
    (separator : option string) (heights : option (list Z)) (i : nat) (fig : loc) : M unit :=
  (if truthy_list heights && Nat.ltb i (py_len heights)
   then h <- py_index heights i ;; update_layout fig h
   else ret tt) ;;;
  if Nat.eqb i 0 then
    s <- fig_to_html fig true include_plotlyjs ;;
    write html_fname s
  else
    (if truthy_str separator then write html_fname (default EmptyString separator) else ret tt) ;;;
    s <- fig_to_html fig false (JsBool false) ;;
    write html_fname s.

Fixpoint write_figs (html_fname : string) (include_plotlyjs : IncludeJs)
    (separator : option string) (heights : option (list Z)) (i : nat) (figs : list loc) : M unit :=
  match figs with
  | [] => ret tt
  | fig :: rest =>
      loop_body html_fname include_plotlyjs separator heights i fig ;;;
      write_figs html_fname include_plotlyjs separator heights (S i) rest
  end.

(** The defaults of the source are [include_plotlyjs='cdn'],
    [separator=None], [auto_open=False], [heights=None]. *)
Definition combine_plotly_figs_to_html (plotly_figs : list loc) (html_fname : string)
    (include_plotlyjs : IncludeJs) (separator : option string) (auto_open : bool)
    (heights : option (list Z)) : M unit :=
  open_write html_fname ;;;
  write_figs html_fname include_plotlyjs separator heights 0 plotly_figs ;;;
  if auto_open then
    let uri := absolute_uri html_fname in
    webbrowser_open uri
  else ret tt.

End Notebook.

(** ** A small library instance and world, for the examples *)

Definition show_height (o : option Z) : string :=
  match o with
  | None => "auto"
  | Some h => if (h <? 100)%Z then "low" else if (h <? 1000)%Z then "mid" else "high"
  end.

Definition demo_to_html (f : Figure) (full_html : bool) (js : IncludeJs) : result string :=
  if String.eqb (fig_data f) "broken" then Raise (LibraryError "to_html")
  else
    let div := "<div " +:+ fig_data f +:+ ":" +:+ show_height (layout_height f) +:+ ">" in
    Ok (if full_html
        then "<html>" +:+ (match js with JsBool false => "" | _ => "<script>" end) +:+ div +:+ "</html>"
        else div).

#[local] Instance demo_library : Library := {|
  to_html := demo_to_html;
  validate_height := fun h => if (h <? 10)%Z then Some (ValueError "height") else None;
  absolute_uri := fun p => "file:///home/" +:+ p
|}.

Definition demo_world : World :=
  {| files := {[ "yhat.png" := "foobar"; "old.html" := "<p>old</p>" ]};
     read_fault := {[ "secret.png" := AtOpen (PermissionError "secret.png") ]};
     write_fault := {[ "/proc/x.html" := AtOpen (PermissionError "/proc/x.html");
                       "/full/x.html" := AtIO (OSError "No space left on device") ]};
     heap := {[ 1%positive := mkFigure "fig1" None;
                2%positive := mkFigure "fig2" None;
                3%positive := mkFigure "fig3" (Some 450%Z);
                4%positive := mkFigure "broken" None ]};
     events := [] |}.


(** ** Notions the statements use *)

(** The exception a call of the trace raised, if it did. *)
Definition failure (ev : Event) : option Exn :=
  match ev with
  | EvOpen _ _ err => err
  | EvRead _ (Raise e) => Some e
  | EvWrite _ _ err => err
  | EvUpdateLayout _ _ err => err
  | EvToHtml _ _ _ _ (Raise e) => Some e
  | _ => None
  end.

(** [outcome r evs]: a computation that made the calls [evs] returned when
    none of them failed, and raised [e] when its last call failed with [e],
    all calls before it having returned. *)
Definition outcome {A} (r : result A) (evs : list Event) : Prop :=
  match r with
  | Ok _ => Forall (fun ev => failure ev = None) evs
  | Raise e =>
      exists evs0 ev, evs = evs0 ++ [ev] /\
        Forall (fun ev => failure ev = None) evs0 /\ failure ev = Some e
  end.

(** A computation raises natively when, from every world, its result is
    the [outcome] of the calls it added to the trace. *)
Definition raises_natively {A} (m : M A) : Prop :=
  forall w, exists evs, events (m w).2 = events w ++ evs /\ outcome (m w).1 evs.

(** The [to_html] calls of a trace, in order. *)
Definition is_to_html (ev : Event) : bool :=
  match ev with EvToHtml _ _ _ _ _ => true | _ => false end.

Definition html_calls (evs : list Event) : list Event := List.filter is_to_html evs.

(** The arguments and the result of the call that serializes the figure at
    index [i]: a complete document for the first, a fragment without
    plotly.js for the others. *)
Definition js_arg (include_plotlyjs : IncludeJs) (i : nat) : IncludeJs :=
  if Nat.eqb i 0 then include_plotlyjs else JsBool false.

Definition html_call (include_plotlyjs : IncludeJs) (i : nat) (fig : loc)
    (f : Figure) (d : string) : Event :=
  EvToHtml fig (Some f) (Nat.eqb i 0) (js_arg include_plotlyjs i) (Ok d).

Fixpoint calls_from (include_plotlyjs : IncludeJs) (i : nat) (figs : list loc)
    (ser : list (Figure * string)) : list Event :=
  match figs, ser with
  | fig :: figs', (f, d) :: ser' =>
      html_call include_plotlyjs i fig f d :: calls_from include_plotlyjs (S i) figs' ser'
  | _, _ => []
  end.

(** The text the iteration of index [i] writes, and the text of a run of
    iterations from index [i]. *)
Definition piece (separator : option string) (i : nat) (d : string) : string :=
  if Nat.eqb i 0 then d else default EmptyString separator +:+ d.

Fixpoint text_from (separator : option string) (i : nat) (docs : list string) : string :=
  match docs with
  | [] => EmptyString
  | d :: ds => piece separator i d +:+ text_from separator (S i) ds
  end.


(** The heights paired with the figures by position, applied in order, each
    to the object as it then stands. *)
Definition set_heights (h : gmap loc Figure) (pairs : list (loc * Z)) : gmap loc Figure :=
  foldl (fun h p => alter (fun f => with_height f p.2) p.1 h) h pairs.

(** Two readings of the spec that the loop does not satisfy, stated to be
    refuted: that the call leaves every figure of the list as it was, and
    that a figure at an index past the heights is serialized with the layout
    height it had before the call. *)
Definition figures_read_only : Prop :=
  forall (L : Library) figs fname js sep auto_open heights w fig,
    fig ∈ figs ->
    heap (combine_plotly_figs_to_html figs fname js sep auto_open heights w).2 !! fig
    = heap w !! fig.

Definition unlisted_height_as_given : Prop :=
  forall (L : Library) figs fname js sep auto_open hs w w' evs ser i fig f d f0,
    hs <> [] ->
    combine_plotly_figs_to_html figs fname js sep auto_open (Some hs) w = (Ok tt, w') ->
    events w' = events w ++ evs ->
    html_calls evs = calls_from js 0 figs ser ->
    figs !! i = Some fig ->
    ser !! i = Some (f, d) ->
    length hs <= i ->
    heap w !! fig = Some f0 ->
    layout_height f = layout_height f0.

(** Two worlds agree on what a call is given: the figures of the list, and
    the content and the accessibility of the file.  A computation runs the
    same in such worlds when it ends the same way, makes the same calls and
    leaves worlds that agree again: it depends on nothing else, and on
    nothing an earlier call left behind. *)
Definition agree (figs : list loc) (path : string) (w1 w2 : World) : Prop :=
  (forall fig, fig ∈ figs -> heap w1 !! fig = heap w2 !! fig) /\
  files w1 !! path = files w2 !! path /\
  read_fault w1 !! path = read_fault w2 !! path /\
  write_fault w1 !! path = write_fault w2 !! path.

Definition same_run {A} (figs : list loc) (path : string) (m : M A) : Prop :=
  forall w1 w2, agree figs path w1 w2 ->
    (m w1).1 = (m w2).1 /\
    agree figs path (m w1).2 (m w2).2 /\
    exists evs, events (m w1).2 = events w1 ++ evs /\ events (m w2).2 = events w2 ++ evs.

(** ** The last cell of the notebook

    [fig1], [fig2] and [fig3] are the figures the earlier cells made. *)
Definition notebook_cell `{Library} (fig1 fig2 fig3 : loc) : M unit :=
  combine_plotly_figs_to_html [fig1; fig2; fig3] "combined.html" JsCdn (Some "<hr>") false
    (Some [400; 300; 500]%Z) ;;;
  logo <- convert_logo "yhat.png" ;;
  add_html_header "combined.html" logo "Combined Plotly Figures".

(** ** Further notions *)

(** A predicate on the characters of a string. *)
Fixpoint all_chars (P : ascii -> bool) (s : string) : bool :=
  match s with
  | EmptyString => true
  | String c s' => P c && all_chars P s'
  end.

(** The characters of a base64 text: the 64 digits and the padding. *)
Definition b64_text_char (c : ascii) : bool :=
  match index_of c b64_alphabet with
  | Some _ => true
  | None => Ascii.eqb c "="
  end.

Definition not_quote (c : ascii) : bool := negb (Ascii.eqb c "034").



(** What the writes of a trace that returned wrote, in order. *)
Fixpoint written (evs : list Event) : string :=
  match evs with
  | [] => EmptyString
  | EvWrite _ s None :: evs' => s +:+ written evs'
  | _ :: evs' => written evs'
  end.

(** The calls the loop makes: writes to the one file, and plotly calls. *)
Definition loop_event (path : string) (ev : Event) : bool :=
  match ev with
  | EvWrite p _ _ => String.eqb p path
  | EvUpdateLayout _ _ _ | EvToHtml _ _ _ _ _ => true
  | _ => false
  end.

(** A computation that behaves as a part of the loop on the file [path]:
    it makes only such calls, leaves the faults alone, and changes the file
    store only by appending to [path] what its writes wrote. *)
Definition loop_like {A} (path : string) (m : M A) : Prop :=
  forall w, exists evs,
    events (m w).2 = events w ++ evs /\
    Forall (fun ev => loop_event path ev = true) evs /\
    read_fault (m w).2 = read_fault w /\ write_fault (m w).2 = write_fault w /\
    forall c, files w !! path = Some c ->
      files (m w).2 = <[path := c +:+ written evs]> (files w).

Definition is_ok {A} (r : result A) : bool :=
  match r with Ok _ => true | Raise _ => false end.

(** The figure the iteration of index [j] serializes, for the heap [h] the
    call starts from: the heights of the indices up to [j] are applied by
    then.  The iteration goes through when plotly accepts [heights[j]], if
    there is one, the object is a figure and [to_html] returns on it. *)
Definition figure_at (h : gmap loc Figure) (figs : list loc) (hs : list Z) (j : nat)
    (fig : loc) : option Figure :=
  set_heights h (take (S j) (zip figs hs)) !! fig.

Definition iteration_passes `{Library} (js : IncludeJs) (h : gmap loc Figure)
    (figs : list loc) (hs : list Z) (j : nat) (fig : loc) : Prop :=
  (forall ht, hs !! j = Some ht -> validate_height ht = None) /\
  exists f d, figure_at h figs hs j fig = Some f /\
    to_html f (Nat.eqb j 0) (js_arg js j) = Ok d.

(** The height the pairs leave on the object [l]: that of the last pair
    that names it. *)
Fixpoint last_height (pairs : list (loc * Z)) (l : loc) : option Z :=
  match pairs with
  | [] => None
  | (l', ht) :: ps =>
      match last_height ps l with
      | Some x => Some x
      | None => if decide (l' = l) then Some ht else None
      end
  end.

(** Two heaps give the loop the same figures: at every index the iteration
    serializes the same figure, or finds no figure in both. *)
Definition same_figures (h1 h2 : gmap loc Figure) (figs : list loc) (hs : list Z) : Prop :=
  forall j fig, figs !! j = Some fig -> figure_at h1 figs hs j fig = figure_at h2 figs hs j fig.

(** The calls the last cell of the notebook may make: it opens
    [combined.html] for writing and for reading text and [yhat.png] for
    reading bytes, writes to [combined.html] only, and opens no browser. *)
Definition cell_event (ev : Event) : bool :=
  match ev with
  | EvOpen p ModeReadBinary _ => String.eqb p "yhat.png"
  | EvOpen p _ _ | EvWrite p _ _ => String.eqb p "combined.html"
  | EvRead p _ => String.eqb p "combined.html" || String.eqb p "yhat.png"
  | EvUpdateLayout _ _ _ | EvToHtml _ _ _ _ _ => true
  | EvBrowser _ => false
  end.

(** A computation keeps to the calls [P] and to the file [path]: every call
    it makes satisfies [P], it changes no other file and no fault. *)
Definition keeps_to {A} (P : Event -> bool) (path : string) (m : M A) : Prop :=
  forall w,
    (exists evs, events (m w).2 = events w ++ evs /\ Forall (fun ev => P ev = true) evs) /\
    (forall p, p <> path -> files (m w).2 !! p = files w !! p) /\
    read_fault (m w).2 = read_fault w /\ write_fault (m w).2 = write_fault w.

(** Why the iteration of index [k] raises [e], and what it has written to
    the file by then: the object is no figure; or plotly refuses
    [heights[k]]; or [to_html] raises on the figure.  The height step comes
    first and writes nothing; the separator is written before [to_html] is
    called. *)
Definition stops_at `{Library} (js : IncludeJs) (sep : option string) (h : gmap loc Figure)
    (figs : list loc) (hs : list Z) (k : nat) (fig : loc) (e : Exn) (tail : string) : Prop :=
  (figure_at h figs hs k fig = None /\ e = AttributeError fig /\
   tail = match hs !! k with Some _ => EmptyString | None => piece sep k EmptyString end)
  \/
  (exists ht, hs !! k = Some ht /\ is_Some (figure_at h figs hs k fig) /\
     validate_height ht = Some e /\ tail = EmptyString)
  \/
  (exists f, figure_at h figs hs k fig = Some f /\
     (forall ht, hs !! k = Some ht -> validate_height ht = None) /\
     to_html f (Nat.eqb k 0) (js_arg js k) = Raise e /\ tail = piece sep k EmptyString).

(** * Properties *)

(** ** The model on examples *)

(** The test vectors of RFC 4648, section 10. *)
Example b64encode_rfc4648 :
  map (fun s => string_of_list_byte (b64encode (list_byte_of_string s)))
      [""; "f"; "fo"; "foo"; "foob"; "fooba"; "foobar"]
  = [""; "Zg=="; "Zm8="; "Zm9v"; "Zm9vYg=="; "Zm9vYmE="; "Zm9vYmFy"].
Proof. vm_compute. reflexivity. Qed.

Example convert_logo_demo :
  (convert_logo "yhat.png" demo_world).1 = Ok "data:image/png;base64,Zm9vYmFy"
  /\ (convert_logo "secret.png" demo_world).1 = Raise (PermissionError "secret.png")
  /\ (convert_logo "nowhere.png" demo_world).1 = Raise (FileNotFoundError "nowhere.png").
Proof. repeat split; vm_compute; reflexivity. Qed.

(** The call of the notebook's last cell, with three figures. *)
Example combine_demo :
  let run := combine_plotly_figs_to_html [1; 2; 3]%positive "combined.html" JsCdn
               (Some "<hr>") false (Some [400; 300; 500]%Z) demo_world in
  run.1 = Ok tt /\
  files run.2 !! "combined.html"
  = Some "<html><script><div fig1:mid></html><hr><div fig2:mid><hr><div fig3:mid>".
Proof. split; vm_compute; reflexivity. Qed.

(** A figure whose [to_html] raises: the exception leaves the loop, the
    file keeps what was written before it, the separator included. *)
Example combine_demo_raises :
  let run := combine_plotly_figs_to_html [1; 4; 3]%positive "combined.html" JsCdn
               (Some "<hr>") true None demo_world in
  run.1 = Raise (LibraryError "to_html") /\
  files run.2 !! "combined.html" = Some "<html><script><div fig1:auto></html><hr>".
Proof. split; vm_compute; reflexivity. Qed.

(** A disk that is full: [open] returns, the first [write] raises. *)
Example combine_demo_disk_full :
  let run := combine_plotly_figs_to_html [1; 2]%positive "/full/x.html" JsCdn
               None false None demo_world in
  run.1 = Raise (OSError "No space left on device") /\
  events run.2
  = [EvOpen "/full/x.html" ModeWrite None;
     EvToHtml 1%positive (Some (mkFigure "fig1" None)) true JsCdn
       (Ok "<html><script><div fig1:auto></html>");
     EvWrite "/full/x.html" "<html><script><div fig1:auto></html>"
       (Some (OSError "No space left on device"))].
Proof. split; vm_compute; reflexivity. Qed.

(** ** Strings *)

Lemma app_cons_s (x : ascii) (a b : string) : String x a +:+ b = String x (a +:+ b).
Proof. reflexivity. Qed.

Lemma app_assoc_s (a b c : string) : (a +:+ b) +:+ c = a +:+ (b +:+ c).
Proof.
  induction a as [|x a IH]; [reflexivity |].
  rewrite !app_cons_s. now rewrite IH.
Qed.

Lemma app_nil_r_s (a : string) : a +:+ EmptyString = a.
Proof.
  induction a as [|x a IH]; [reflexivity |].
  rewrite app_cons_s. now rewrite IH.
Qed.


Lemma prefix_app_s (a b : string) : String.prefix a (a +:+ b) = true.
Proof.
  induction a as [|x a IH]; [now destruct b |].
  rewrite app_cons_s. simpl. now destruct (ascii_dec x x).
Qed.

(** ** base64 *)

Lemma three_step_ind {A} (P : list A -> Prop) :
  P [] -> (forall a, P [a]) -> (forall a b, P [a; b]) ->
  (forall a b c l, P l -> P (a :: b :: c :: l)) ->
  forall l, P l.
Proof.
  intros H0 H1 H2 H3 l.
  cut (P l /\ (forall a, P (a :: l)) /\ (forall a b, P (a :: b :: l))).
  { tauto. }
  induction l as [|x l (IHa & IHb & IHc)]; auto.
Qed.

Lemma digits_ok : forallb digit_ok (map N.of_nat (seq 0 64)) = true.
Proof. vm_compute. reflexivity. Qed.

Lemma digit_ok_lt (n : N) : (n < 64)%N -> digit_ok n = true.
Proof.
  intros Hn. pose proof digits_ok as Hall.
  rewrite forallb_forall in Hall. apply Hall.
  apply in_map_iff. exists (N.to_nat n). split; [apply N2Nat.id |].
  apply in_seq. lia.
Qed.

Lemma b64_value_digit (n : N) : (n < 64)%N -> b64_value (b64_digit n) = Some n.
Proof.
  intros Hn. apply digit_ok_lt in Hn. unfold digit_ok in Hn.
  destruct (b64_value (b64_digit n)) as [m|]; [|discriminate].
  apply andb_prop in Hn as [Hn _]. apply andb_prop in Hn as [Hn _].
  apply N.eqb_eq in Hn. now subst.
Qed.

Lemma b64_digit_not_pad (n : N) : (n < 64)%N -> Byte.eqb (b64_digit n) b64_pad = false.
Proof.
  intros Hn. apply digit_ok_lt in Hn. unfold digit_ok in Hn.
  destruct (b64_value (b64_digit n)) as [m|]; [|discriminate].
  apply andb_prop in Hn as [Hn _]. apply andb_prop in Hn as [_ Hn].
  now apply negb_true_iff in Hn.
Qed.

Lemma get_ge (s : string) : forall n, (String.length s <= n)%nat -> String.get n s = None.
Proof.
  induction s as [|c s IH]; intros n Hn; [now destruct n |].
  destruct n as [|n]; simpl in *; [lia | apply IH; lia].
Qed.

Lemma b64_digit_ascii (n : N) : (Byte.to_N (b64_digit n) <? 128)%N = true.
Proof.
  destruct (N.lt_ge_cases n 64) as [Hn|Hn].
  - apply digit_ok_lt in Hn. unfold digit_ok in Hn.
    destruct (b64_value (b64_digit n)) as [m|]; [|discriminate].
    now apply andb_prop in Hn as [_ Hn].
  - unfold b64_digit. rewrite get_ge; [reflexivity |].
    change (String.length b64_alphabet) with 64%nat. lia.
Qed.

Lemma b64encode_ascii (bs : list byte) :
  forallb (fun d => (Byte.to_N d <? 128)%N) (b64encode bs) = true.
Proof.
  induction bs as [| a | a b | a b c l IH] using three_step_ind;
    cbn [b64encode forallb]; rewrite ?b64_digit_ascii, ?IH; reflexivity.
Qed.

Lemma decode_utf8_from_ascii (bs : list byte) :
  forallb (fun d => (Byte.to_N d <? 128)%N) bs = true ->
  forall pos, decode_utf8_from pos bs = Ok (string_of_list_byte bs).
Proof.
  induction bs as [|b bs IH]; intros Hall pos; [reflexivity |].
  cbn [forallb] in Hall. apply andb_prop in Hall as [Hb Hbs].
  cbn [decode_utf8_from]. rewrite Hb, (IH Hbs). reflexivity.
Qed.

(** The text of a base64 encoding always decodes: [.decode("utf-8")] in
    [convert_logo] cannot raise. *)
Lemma decode_b64encode (bs : list byte) :
  decode_utf8 (b64encode bs) = Ok (string_of_list_byte (b64encode bs)).
Proof. apply decode_utf8_from_ascii, b64encode_ascii. Qed.

Lemma byte_bound (a : byte) : (Byte.to_N a < 256)%N.
Proof. pose proof (Byte.to_N_bounded a). lia. Qed.

Ltac Zify.zify_post_hook ::= Z.to_euclidean_division_equations.

(** Round trip: the encoding determines the bytes. *)
Lemma b64decode_b64encode (bs : list byte) : b64decode (b64encode bs) = Some bs.
Proof.
  induction bs as [| a | a b | a b c l IH] using three_step_ind.
  - reflexivity.
  - pose proof (byte_bound a).
    cbn [b64encode b64decode].
    rewrite !b64_value_digit by lia. cbn [mbind option_bind].
    replace (_ * 4 + _ / 16)%N with (Byte.to_N a) by lia.
    rewrite Byte.of_to_N. reflexivity.
  - pose proof (byte_bound a). pose proof (byte_bound b).
    cbn [b64encode b64decode].
    rewrite !b64_value_digit by lia. cbn [mbind option_bind].
    replace (_ * 4 + _ / 16)%N with (Byte.to_N a) by lia.
    rewrite Byte.of_to_N. cbn [mbind option_bind].
    rewrite b64_digit_not_pad by lia.
    replace (_ mod 16 * 16 + _ / 4)%N with (Byte.to_N b) by lia.
    rewrite Byte.of_to_N. reflexivity.
  - pose proof (byte_bound a). pose proof (byte_bound b). pose proof (byte_bound c).
    cbn [b64encode b64decode].
    rewrite !b64_value_digit by lia. cbn [mbind option_bind].
    replace (_ * 4 + _ / 16)%N with (Byte.to_N a) by lia.
    rewrite Byte.of_to_N. cbn [mbind option_bind].
    rewrite !b64_digit_not_pad by lia.
    replace (_ mod 16 * 16 + _ / 4)%N with (Byte.to_N b) by lia.
    rewrite Byte.of_to_N. cbn [mbind option_bind].
    replace (_ mod 4 * 64 + _)%N with (Byte.to_N c) by lia.
    rewrite Byte.of_to_N. cbn [mbind option_bind].
    rewrite IH. reflexivity.
Qed.

(** ** The monad and the trace *)

Lemma native_ret {A} (a : A) : raises_natively (ret a).
Proof. intros w. exists []. simpl. rewrite app_nil_r. split; [reflexivity | constructor]. Qed.

Lemma native_bind {A B} (m : M A) (k : A -> M B) :
  raises_natively m -> (forall a, raises_natively (k a)) -> raises_natively (bind m k).
Proof.
  intros Hm Hk w. unfold bind.
  destruct (Hm w) as (evs1 & Hev1 & Hout1).
  destruct (m w) as [[a|e] w1]; simpl in *.
  - destruct (Hk a w1) as (evs2 & Hev2 & Hout2).
    exists (evs1 ++ evs2). rewrite Hev2, Hev1, <- app_assoc. split; [reflexivity |].
    destruct ((k a w1).1) as [b|e]; simpl in *.
    + now apply Forall_app.
    + destruct Hout2 as (evs0 & ev & -> & Hall & Hfail).
      exists (evs1 ++ evs0), ev. rewrite <- app_assoc.
      split; [reflexivity |]. split; [now apply Forall_app | assumption].
  - exists evs1. split; assumption.
Qed.

Lemma native_one {A} (m : M A) :
  (forall w, exists ev, events (m w).2 = events w ++ [ev] /\
     match (m w).1 with Ok _ => failure ev = None | Raise e => failure ev = Some e end) ->
  raises_natively m.
Proof.
  intros Hm w. destruct (Hm w) as (ev & Hev & Hf). exists [ev]. split; [assumption |].
  destruct ((m w).1) as [a|e]; simpl.
  - constructor; [assumption | constructor].
  - exists [], ev. split; [reflexivity |]. split; [constructor | assumption].
Qed.

Lemma outcome_raise_last {A} (evs0 : list Event) (ev : Event) (e : Exn) :
  Forall (fun ev => failure ev = None) evs0 -> failure ev = Some e ->
  @outcome A (Raise e) (evs0 ++ [ev]).
Proof. intros Hall Hfail. exists evs0, ev. auto. Qed.

Lemma native_read_file path mode : raises_natively (read_file path mode).
Proof.
  intros w. unfold read_file.
  destruct (read_fault w !! path) as [[e|e]|], (files w !! path) as [c|]; cbn [fst snd].
  - exists [EvOpen path mode (Some e)]. split; [reflexivity |].
    now apply (outcome_raise_last []).
  - exists [EvOpen path mode (Some e)]. split; [reflexivity |].
    now apply (outcome_raise_last []).
  - exists ([EvOpen path mode None] ++ [EvRead path (Raise e)]).
    split; [cbn; now rewrite <- app_assoc |].
    apply outcome_raise_last; [repeat constructor | reflexivity].
  - exists [EvOpen path mode (Some (FileNotFoundError path))]. split; [reflexivity |].
    now apply (outcome_raise_last []).
  - exists [EvOpen path mode None; EvRead path (Ok c)].
    split; [cbn; now rewrite <- app_assoc | repeat constructor].
  - exists [EvOpen path mode (Some (FileNotFoundError path))]. split; [reflexivity |].
    now apply (outcome_raise_last []).
Qed.

Lemma native_open_write path : raises_natively (open_write path).
Proof.
  apply native_one. intros w. unfold open_write.
  destruct (write_fault w !! path) as [[e|e]|]; cbn; eexists; split; reflexivity.
Qed.

Lemma native_write path s : raises_natively (write path s).
Proof.
  apply native_one. intros w. unfold write.
  destruct (write_fault w !! path) as [[e|e]|]; cbn; eexists; split; reflexivity.
Qed.

Lemma native_convert_logo path : raises_natively (convert_logo path).
Proof.
  unfold convert_logo, read_bytes.
  apply native_bind; [|intros image].
  - apply native_bind; [apply native_read_file | intros c; apply native_ret].
  - rewrite decode_b64encode. apply native_bind; [apply (native_ret _) | intros s; apply native_ret].
Qed.

Lemma native_add_html_header html_file logo title :
  raises_natively (add_html_header html_file logo title).
Proof.
  unfold add_html_header, read_text.
  apply native_bind; [apply native_read_file | intros c].
  apply native_bind; [apply native_open_write | intros _]. apply native_write.
Qed.

(** ** [convert_logo] and [add_html_header] on accessible files *)

Lemma convert_logo_readable path w c :
  read_fault w !! path = None -> files w !! path = Some c ->
  convert_logo path w =
    (Ok ("data:image/png;base64," +:+ string_of_list_byte (b64encode (list_byte_of_string c))),
     log (log w (EvOpen path ModeReadBinary None)) (EvRead path (Ok c))).
Proof.
  intros Hden Hfile. unfold convert_logo, read_bytes, bind, read_file.
  rewrite Hden, Hfile. cbn [ret]. now rewrite decode_b64encode.
Qed.

Lemma add_html_header_accessible html_file logo title w c :
  read_fault w !! html_file = None -> write_fault w !! html_file = None ->
  files w !! html_file = Some c ->
  exists w', add_html_header html_file logo title w = (Ok tt, w') /\
    files w' = <[html_file := html_content logo title +:+ c]> (files w) /\
    read_fault w' = read_fault w /\ write_fault w' = write_fault w /\
    heap w' = heap w.
Proof.
  intros Hdr Hdw Hfile. unfold add_html_header, read_text, bind, read_file.
  rewrite Hdr, Hfile. unfold open_write. cbn [write_fault log]. rewrite Hdw.
  unfold write. cbn [write_fault log set_files]. rewrite Hdw.
  eexists. split; [reflexivity |]. cbn.
  rewrite lookup_insert_eq. cbn. now rewrite insert_insert_eq.
Qed.



(** The header is a fixed shell around the logo and the title: the logo is
    the [src] of its [img] tag and the title the text of its [h1]. *)
Lemma html_content_shell :
  exists pre mid post, forall logo title,
    html_content logo title =
      pre +:+ ("<img src=" +:+ dq +:+ logo +:+ dq) +:+ mid
          +:+ ("<h1>" +:+ title +:+ "</h1>") +:+ post.
Proof.
  exists (substring 0 1944 (html_content EmptyString EmptyString)),
         (substring 1955 29 (html_content EmptyString EmptyString)),
         (substring 1993 58 (html_content EmptyString EmptyString)).
  intros logo title.
  unfold html_content, join_lines. cbn [String.concat].
  rewrite !app_assoc_s. reflexivity.
Qed.


(** The guard of the height override is the bounds check of [heights[i]]. *)
Lemma heights_guard (heights : option (list Z)) (i : nat) :
  truthy_list heights && Nat.ltb i (py_len heights) = bool_decide (is_Some (default [] heights !! i)).
Proof.
  unfold py_len. destruct heights as [[|h hs]|]; try reflexivity.
  change (default [] (Some (h :: hs))) with (h :: hs). cbn [truthy_list andb].
  destruct (Nat.ltb_spec i (length (h :: hs))) as [Hlt|Hge]; symmetry.
  - apply bool_decide_eq_true. now apply lookup_lt_is_Some.
  - apply bool_decide_eq_false. intros Hs. apply lookup_lt_is_Some in Hs. lia.
Qed.

Section NotebookProperties.
Context `{Library}.

(** The height step of an iteration, by cases on [heights[i]]. *)
Lemma height_step (heights : option (list Z)) (i : nat) (fig : loc) :
  (if truthy_list heights && Nat.ltb i (py_len heights)
   then h <- py_index heights i ;; update_layout fig h
   else ret tt)
  = match default [] heights !! i with
    | Some h => update_layout fig h
    | None => ret tt
    end.
Proof.
  rewrite heights_guard. unfold py_index.
  destruct (default [] heights !! i) as [h|] eqn:Hi.
  - rewrite bool_decide_eq_true_2 by eauto. reflexivity.
  - rewrite bool_decide_eq_false_2; [reflexivity |]. intros [x Hx]. discriminate.
Qed.

Lemma native_update_layout fig h : raises_natively (update_layout fig h).
Proof.
  apply native_one. intros w. unfold update_layout.
  destruct (heap w !! fig) as [f|]; simpl; [|eexists; split; reflexivity].
  destruct (validate_height h) as [e|]; simpl; eexists; split; reflexivity.
Qed.

Lemma native_fig_to_html fig full_html js : raises_natively (fig_to_html fig full_html js).
Proof.
  apply native_one. intros w. unfold fig_to_html.
  destruct (heap w !! fig) as [f|]; simpl; [|eexists; split; reflexivity].
  eexists; split; [reflexivity |]. simpl. now destruct (to_html f full_html js).
Qed.

Lemma native_webbrowser_open uri : raises_natively (webbrowser_open uri).
Proof. apply native_one. intros w. eexists; split; reflexivity. Qed.

Lemma native_loop_body fname js sep heights i fig :
  raises_natively (loop_body fname js sep heights i fig).
Proof.
  unfold loop_body. rewrite height_step.
  apply native_bind.
  { destruct (default [] heights !! i); [apply native_update_layout | apply native_ret]. }
  intros _. destruct (Nat.eqb i 0).
  - apply native_bind; [apply native_fig_to_html | intros s; apply native_write].
  - apply native_bind.
    { destruct (truthy_str sep); [apply native_write | apply native_ret]. }
    intros _. apply native_bind; [apply native_fig_to_html | intros s; apply native_write].
Qed.

Lemma native_write_figs fname js sep heights figs :
  forall i, raises_natively (write_figs fname js sep heights i figs).
Proof.
  induction figs as [|fig rest IH]; intros i; cbn [write_figs].
  - apply native_ret.
  - apply native_bind; [apply native_loop_body | intros _; apply IH].
Qed.

Lemma native_combine figs fname js sep auto_open heights :
  raises_natively (combine_plotly_figs_to_html figs fname js sep auto_open heights).
Proof.
  unfold combine_plotly_figs_to_html.
  apply native_bind; [apply native_open_write | intros _].
  apply native_bind; [apply native_write_figs | intros _].
  destruct auto_open; [apply native_webbrowser_open | apply native_ret].
Qed.

(** ** One iteration of the loop that returns *)

Lemma html_calls_app (evs1 evs2 : list Event) :
  html_calls (evs1 ++ evs2) = html_calls evs1 ++ html_calls evs2.
Proof. unfold html_calls. induction evs1 as [|ev evs1 IH]; simpl; [reflexivity |].
  destruct (is_to_html ev); simpl; now rewrite IH. Qed.

Lemma update_layout_ok fig h w w' :
  update_layout fig h w = (Ok tt, w') ->
  exists f0, heap w !! fig = Some f0 /\ validate_height h = None /\
    w' = log (set_heap w (<[fig := with_height f0 h]> (heap w))) (EvUpdateLayout fig h None).
Proof.
  unfold update_layout. intros Hrun.
  destruct (heap w !! fig) as [f0|]; [|discriminate].
  destruct (validate_height h); [discriminate |].
  injection Hrun as <-. eauto.
Qed.

Lemma fig_to_html_ok fig b js w d w' :
  fig_to_html fig b js w = (Ok d, w') ->
  exists f, heap w !! fig = Some f /\ to_html f b js = Ok d /\
    w' = log w (EvToHtml fig (Some f) b js (Ok d)).
Proof.
  unfold fig_to_html. intros Hrun.
  destruct (heap w !! fig) as [f|]; [|discriminate].
  injection Hrun as Hd <-. exists f. rewrite Hd. eauto.
Qed.

Lemma sep_text (sep : option string) :
  (if truthy_str sep then default EmptyString sep else EmptyString) = default EmptyString sep.
Proof. now destruct sep as [[|c s]|]. Qed.

Lemma bind_ok {A B} (m : M A) (k : A -> M B) w b w' :
  bind m k w = (Ok b, w') ->
  exists a w1, m w = (Ok a, w1) /\ k a w1 = (Ok b, w').
Proof.
  unfold bind. destruct (m w) as [[a|e] w1]; [eauto | discriminate].
Qed.

Lemma open_write_ok path w w' :
  open_write path w = (Ok tt, w') ->
  w' = log (set_files w (<[path := EmptyString]> (files w))) (EvOpen path ModeWrite None).
Proof.
  unfold open_write. destruct (write_fault w !! path) as [[e|e]|]; intros [= <-]; reflexivity.
Qed.

Lemma write_ok path s w w' :
  write path s w = (Ok tt, w') ->
  w' = log (set_files w (<[path := default EmptyString (files w !! path) +:+ s]> (files w)))
           (EvWrite path s None).
Proof.
  unfold write. destruct (write_fault w !! path) as [[e|e]|]; intros [= <-]; reflexivity.
Qed.

Lemma serialize_ok fname js sep i fig w w' :
  (if Nat.eqb i 0 then
     s <- fig_to_html fig true js ;;
     write fname s
   else
     (if truthy_str sep then write fname (default EmptyString sep) else ret tt) ;;;
     s <- fig_to_html fig false (JsBool false) ;;
     write fname s) w = (Ok tt, w') ->
  exists f d evs,
    heap w !! fig = Some f /\
    to_html f (Nat.eqb i 0) (js_arg js i) = Ok d /\
    heap w' = heap w /\
    events w' = events w ++ evs /\ html_calls evs = [html_call js i fig f d] /\
    files w' = <[fname := default EmptyString (files w !! fname) +:+ piece sep i d]> (files w) /\
    read_fault w' = read_fault w /\ write_fault w' = write_fault w.
Proof.
  unfold piece, html_call, js_arg. destruct (Nat.eqb i 0).
  - intros Hrun. apply bind_ok in Hrun as (d & w1 & Hser & Hw).
    apply fig_to_html_ok in Hser as (f & Hf & Hd & ->). apply write_ok in Hw as ->.
    exists f, d, [EvToHtml fig (Some f) true js (Ok d); EvWrite fname d None].
    repeat split; try reflexivity; try assumption.
    cbn. now rewrite <- !app_assoc.
  - intros Hrun. apply bind_ok in Hrun as ([] & w0 & Hsep & Hrun).
    apply bind_ok in Hrun as (d & w1 & Hser & Hw).
    apply fig_to_html_ok in Hser as (f & Hf & Hd & ->). apply write_ok in Hw as ->.
    destruct (truthy_str sep) eqn:Htruthy.
    + apply write_ok in Hsep as ->. cbn in Hf.
      exists f, d, [EvWrite fname (default EmptyString sep) None;
                    EvToHtml fig (Some f) false (JsBool false) (Ok d);
                    EvWrite fname d None].
      repeat split; try reflexivity; try assumption.
      * cbn. now rewrite <- !app_assoc.
      * cbn. rewrite lookup_insert_eq. cbn. rewrite insert_insert_eq.
        now rewrite app_assoc_s.
    + injection Hsep as <-.
      exists f, d, [EvToHtml fig (Some f) false (JsBool false) (Ok d); EvWrite fname d None].
      repeat split; try reflexivity; try assumption.
      * cbn. now rewrite <- !app_assoc.
      * cbn. rewrite <- (sep_text sep), Htruthy. reflexivity.
Qed.

Lemma loop_body_ok fname js sep heights i fig w w' :
  loop_body fname js sep heights i fig w = (Ok tt, w') ->
  exists f0 d evs,
    heap w !! fig = Some f0 /\
    let f := match default [] heights !! i with
             | Some h => with_height f0 h
             | None => f0
             end in
    to_html f (Nat.eqb i 0) (js_arg js i) = Ok d /\
    heap w' = match default [] heights !! i with
              | Some h => <[fig := with_height f0 h]> (heap w)
              | None => heap w
              end /\
    events w' = events w ++ evs /\ html_calls evs = [html_call js i fig f d] /\
    files w' = <[fname := default EmptyString (files w !! fname) +:+ piece sep i d]> (files w) /\
    read_fault w' = read_fault w /\ write_fault w' = write_fault w.
Proof.
  unfold loop_body. rewrite height_step. unfold bind at 1.
  destruct (default [] heights !! i) as [h|].
  - destruct (update_layout fig h w) as [[[]|e] w1] eqn:Hup; [|discriminate].
    apply update_layout_ok in Hup as (f0 & Hf0 & Hval & ->).
    intros Hser. apply serialize_ok in Hser
      as (f & d & evs & Hf & Hd & Hheap & Hev & Hcalls & Hfiles & Hdr & Hdw).
    cbn in Hf. rewrite lookup_insert_eq in Hf. injection Hf as <-.
    exists f0, d, (EvUpdateLayout fig h None :: evs).
    repeat split; try assumption.
    + rewrite Hev. cbn. now rewrite <- app_assoc.
  - cbn [ret]. intros Hser. apply serialize_ok in Hser
      as (f & d & evs & Hf & Hd & Hheap & Hev & Hcalls & Hfiles & Hdr & Hdw).
    exists f, d, evs. repeat split; assumption.
Qed.

(** ** The whole loop, when it returns *)

Lemma alter_with_height (h : gmap loc Figure) (fig : loc) (f0 : Figure) (ht : Z) :
  h !! fig = Some f0 ->
  alter (fun f => with_height f ht) fig h = <[fig := with_height f0 ht]> h.
Proof.
  intros Hf. apply map_eq. intros l. destruct (decide (fig = l)) as [->|Hne].
  - rewrite lookup_alter_eq, lookup_insert_eq, Hf. reflexivity.
  - rewrite lookup_alter_ne, lookup_insert_ne by assumption. reflexivity.
Qed.

Lemma write_figs_ok fname js sep heights figs : forall i w w',
  write_figs fname js sep heights i figs w = (Ok tt, w') ->
  exists (ser : list (Figure * string)) (evs : list Event),
    length ser = length figs /\
    events w' = events w ++ evs /\
    html_calls evs = calls_from js i figs ser /\
    heap w' = set_heights (heap w) (zip figs (drop i (default [] heights))) /\
    (forall j fig f d, figs !! j = Some fig -> ser !! j = Some (f, d) ->
       to_html f (Nat.eqb (i + j) 0) (js_arg js (i + j)) = Ok d /\
       match default [] heights !! (i + j) with
       | Some h => exists f0, heap w !! fig = Some f0 /\ f = with_height f0 h
       | None => heap w' !! fig = Some f
       end) /\
    (forall c, files w !! fname = Some c ->
       files w' = <[fname := c +:+ text_from sep i ser.*2]> (files w)) /\
    read_fault w' = read_fault w /\ write_fault w' = write_fault w.
Proof.
  induction figs as [|fig rest IH]; intros i w w'; cbn [write_figs].
  - intros [= <-]. exists [], []. rewrite app_nil_r.
    do 4 (split; [reflexivity |]).
    split; [intros j fig f d Hj; discriminate |].
    split; [|split; reflexivity].
    intros c Hc. cbn. rewrite app_nil_r_s. symmetry. now apply insert_id.
  - unfold bind at 1.
    destruct (loop_body fname js sep heights i fig w) as [[[]|e] w1] eqn:Hbody; [|discriminate].
    apply loop_body_ok in Hbody
      as (f0 & d & evs1 & Hf0 & Hd & Hheap1 & Hev1 & Hcalls1 & Hfiles1 & Hdr1 & Hdw1).
    intros Hrest. apply IH in Hrest
      as (ser & evs2 & Hlen & Hev2 & Hcalls2 & Hheap2 & Hstates & Hfiles2 & Hdr2 & Hdw2).
    set (f := match default [] heights !! i with
              | Some h => with_height f0 h
              | None => f0
              end) in *.
    exists ((f, d) :: ser), (evs1 ++ evs2).
    assert (Hheap : heap w' = set_heights (heap w) (zip (fig :: rest) (drop i (default [] heights)))).
    { rewrite Hheap2, Hheap1. destruct (default [] heights !! i) as [h|] eqn:Hi.
      - rewrite (drop_S _ _ _ Hi). cbn. now rewrite (alter_with_height _ _ _ _ Hf0).
      - apply lookup_ge_None in Hi.
        rewrite !drop_ge by lia. now destruct rest. }
    split; [cbn; now rewrite Hlen |].
    split; [now rewrite Hev2, Hev1, <- app_assoc |].
    split; [rewrite html_calls_app, Hcalls1, Hcalls2; reflexivity |].
    split; [exact Hheap |].
    split; [|split; [|split; congruence]].
    + intros [|j] fig' f' d' Hj Hs.
      * injection Hj as <-. injection Hs as <- <-. rewrite Nat.add_0_r.
        split; [exact Hd |]. subst f.
        destruct (default [] heights !! i) as [h|] eqn:Hi; [eauto |].
        rewrite Hheap. apply lookup_ge_None in Hi.
        rewrite drop_ge by lia. cbn. assumption.
      * cbn in Hj, Hs. destruct (Hstates j fig' f' d' Hj Hs) as [Hd' Hst].
        rewrite Nat.add_succ_r. split; [exact Hd' |].
        cbn [Nat.add] in Hst.
        destruct (default [] heights !! S (i + j)) as [h'|]; [|exact Hst].
        destruct Hst as (f1 & Hf1 & ->). rewrite Hheap1 in Hf1.
        destruct (default [] heights !! i) as [h|]; [|eauto].
        destruct (decide (fig = fig')) as [->|Hne].
        -- rewrite lookup_insert_eq in Hf1. injection Hf1 as <-. eauto.
        -- rewrite lookup_insert_ne in Hf1 by assumption. eauto.
    + intros c Hc. rewrite Hc in Hfiles1. cbn in Hfiles1.
      rewrite (Hfiles2 (c +:+ piece sep i d)), Hfiles1.
      * rewrite insert_insert_eq. cbn. now rewrite app_assoc_s.
      * rewrite Hfiles1. apply lookup_insert_eq.
Qed.

(** ** The heights applied to the heap *)

Lemma set_heights_notin (pairs : list (loc * Z)) : forall (h : gmap loc Figure) (l : loc),
  l ∉ pairs.*1 -> set_heights h pairs !! l = h !! l.
Proof.
  induction pairs as [|[fig ht] pairs IH]; intros h l Hl; [reflexivity |].
  cbn in *. apply not_elem_of_cons in Hl as [Hne Hl].
  unfold set_heights in *. cbn. rewrite IH by assumption.
  now apply lookup_alter_ne.
Qed.

Lemma set_heights_data (pairs : list (loc * Z)) : forall (h : gmap loc Figure) (l : loc),
  fig_data <$> set_heights h pairs !! l = fig_data <$> h !! l.
Proof.
  induction pairs as [|[fig ht] pairs IH]; intros h l; [reflexivity |].
  unfold set_heights in *. cbn. rewrite IH.
  destruct (decide (fig = l)) as [->|Hne].
  - rewrite lookup_alter_eq. now destruct (h !! l).
  - now rewrite lookup_alter_ne.
Qed.

Lemma zip_fst_take (figs : list loc) : forall (hs : list Z),
  (zip figs hs).*1 = take (length hs) figs.
Proof.
  induction figs as [|fig figs IH]; intros [|h hs]; cbn; try reflexivity.
  now rewrite IH.
Qed.

Lemma zip_nil_r (figs : list loc) : zip figs (@nil Z) = [].
Proof. now destruct figs. Qed.

(** An object listed more than once keeps the height of the last index
    that has one. *)
Lemma set_heights_last (figs : list loc) :
  forall (hs : list Z) (h : gmap loc Figure) (j : nat) (fig : loc) (ht : Z) (f0 : Figure),
    figs !! j = Some fig -> hs !! j = Some ht ->
    (forall j', j < j' -> figs !! j' = Some fig -> hs !! j' = None) ->
    h !! fig = Some f0 ->
    set_heights h (zip figs hs) !! fig = Some (with_height f0 ht).
Proof.
  induction figs as [|l figs IH]; intros hs h j fig ht f0 Hj Hh Hlast Hf0; [discriminate |].
  destruct hs as [|h1 hs]; [discriminate |].
  change (set_heights h (zip (l :: figs) (h1 :: hs)))
    with (set_heights (alter (fun f => with_height f h1) l h) (zip figs hs)).
  destruct j as [|j].
  - injection Hj as ->. injection Hh as ->.
    rewrite set_heights_notin.
    + now rewrite lookup_alter_eq, Hf0.
    + rewrite zip_fst_take. intros Hin.
      apply elem_of_take in Hin as (i & Hi & Hlt).
      specialize (Hlast (S i) (Nat.lt_0_succ i) Hi). cbn in Hlast.
      apply lookup_ge_None in Hlast. lia.
  - cbn in Hj, Hh.
    assert (Hlast' : forall j', j < j' -> figs !! j' = Some fig -> hs !! j' = None).
    { intros j' Hlt Hj'. apply (Hlast (S j')); [lia | exact Hj']. }
    destruct (decide (l = fig)) as [->|Hne].
    + rewrite (IH hs _ j fig ht (with_height f0 h1) Hj Hh Hlast'); [reflexivity |].
      now rewrite lookup_alter_eq, Hf0.
    + apply (IH hs _ j fig ht f0 Hj Hh Hlast').
      now rewrite lookup_alter_ne.
Qed.

(** ** The figures after any run of the loop, returned or raised *)

Lemma keeps_heap_bind {A B} (m : M A) (k : A -> M B) :
  (forall w, heap (m w).2 = heap w) -> (forall a w, heap (k a w).2 = heap w) ->
  forall w, heap (bind m k w).2 = heap w.
Proof.
  intros Hm Hk w. unfold bind. pose proof (Hm w) as Hw.
  destruct (m w) as [[a|e] w1]; cbn in *; [now rewrite Hk | exact Hw].
Qed.

Lemma keeps_heap_write path s w : heap (write path s w).2 = heap w.
Proof. unfold write. now destruct (write_fault w !! path) as [[e|e]|]. Qed.

Lemma keeps_heap_fig_to_html fig b js w : heap (fig_to_html fig b js w).2 = heap w.
Proof. unfold fig_to_html. now destruct (heap w !! fig). Qed.

Lemma serialize_heap fname js sep i fig w :
  heap ((if Nat.eqb i 0 then
           s <- fig_to_html fig true js ;;
           write fname s
         else
           (if truthy_str sep then write fname (default EmptyString sep) else ret tt) ;;;
           s <- fig_to_html fig false (JsBool false) ;;
           write fname s) w).2 = heap w.
Proof.
  destruct (Nat.eqb i 0).
  - apply keeps_heap_bind; [apply keeps_heap_fig_to_html | intros; apply keeps_heap_write].
  - apply keeps_heap_bind.
    + destruct (truthy_str sep); [apply keeps_heap_write | reflexivity].
    + intros _ w0. apply keeps_heap_bind;
        [apply keeps_heap_fig_to_html | intros; apply keeps_heap_write].
Qed.

Lemma loop_body_heap fname js sep heights i fig w r w' :
  loop_body fname js sep heights i fig w = (r, w') ->
  heap w' = heap w \/
  exists h, default [] heights !! i = Some h /\
    heap w' = alter (fun f => with_height f h) fig (heap w).
Proof.
  unfold loop_body. rewrite height_step. unfold bind at 1.
  destruct (default [] heights !! i) as [h|].
  - unfold update_layout. destruct (heap w !! fig) as [f0|] eqn:Hf0; [|intros [= _ <-]; now left].
    destruct (validate_height h); [intros [= _ <-]; now left |].
    intros Hrun. right. exists h. split; [reflexivity |].
    apply (f_equal (fun p => heap p.2)) in Hrun. rewrite serialize_heap in Hrun.
    cbn in Hrun. rewrite <- Hrun. symmetry. now apply alter_with_height.
  - cbn [ret]. intros Hrun. left.
    apply (f_equal (fun p => heap p.2)) in Hrun. rewrite serialize_heap in Hrun.
    cbn in Hrun. now rewrite <- Hrun.
Qed.

Lemma write_figs_heap fname js sep heights figs : forall i w,
  exists n, heap (write_figs fname js sep heights i figs w).2
            = set_heights (heap w) (take n (zip figs (drop i (default [] heights)))).
Proof.
  induction figs as [|fig rest IH]; intros i w; cbn [write_figs].
  - exists 0. reflexivity.
  - unfold bind at 1.
    destruct (loop_body fname js sep heights i fig w) as [[[]|e] w1] eqn:Hbody.
    + destruct (IH (S i) w1) as [n Hn].
      apply loop_body_ok in Hbody as (f0 & d & evs1 & Hf0 & _ & Hheap1 & _).
      destruct (default [] heights !! i) as [h|] eqn:Hi.
      * exists (S n). rewrite Hn, Hheap1, (drop_S _ _ _ Hi). cbn.
        now rewrite (alter_with_height _ _ _ _ Hf0).
      * exists 0. rewrite Hn, Hheap1. apply lookup_ge_None in Hi.
        rewrite drop_ge by lia. rewrite zip_nil_r. now rewrite take_nil.
    + destruct (loop_body_heap _ _ _ _ _ _ _ _ _ Hbody) as [Hh | (h & Hi & Hh)]; cbn.
      * exists 0. now rewrite Hh.
      * exists 1. rewrite Hh, (drop_S _ _ _ Hi). reflexivity.
Qed.

(** ** [combine_plotly_figs_to_html] when it returns *)

Lemma combine_ok figs fname js sep auto_open heights w w' :
  combine_plotly_figs_to_html figs fname js sep auto_open heights w = (Ok tt, w') ->
  exists (ser : list (Figure * string)) (evs : list Event),
    length ser = length figs /\
    events w' = events w ++ evs /\
    html_calls evs = calls_from js 0 figs ser /\
    heap w' = set_heights (heap w) (zip figs (default [] heights)) /\
    (forall j fig f d, figs !! j = Some fig -> ser !! j = Some (f, d) ->
       to_html f (Nat.eqb j 0) (js_arg js j) = Ok d /\
       match default [] heights !! j with
       | Some h => exists f0, heap w !! fig = Some f0 /\ f = with_height f0 h
       | None => heap w' !! fig = Some f
       end) /\
    files w' = <[fname := text_from sep 0 ser.*2]> (files w) /\
    read_fault w' = read_fault w /\ write_fault w' = write_fault w.
Proof.
  unfold combine_plotly_figs_to_html. intros Hrun.
  apply bind_ok in Hrun as ([] & w0 & Hopen & Hrun). apply open_write_ok in Hopen.
  apply bind_ok in Hrun as ([] & w1 & Hloop & Hlast). subst w0.
  set (w0 := log (set_files w (<[fname := EmptyString]> (files w))) (EvOpen fname ModeWrite None))
    in *.
  apply write_figs_ok in Hloop
    as (ser & evs & Hlen & Hev & Hcalls & Hheap & Hstates & Hfiles & Hdr1 & Hdw1).
  assert (Hw' : heap w' = heap w1 /\ files w' = files w1 /\ read_fault w' = read_fault w1 /\
                write_fault w' = write_fault w1 /\
                exists evs3, events w' = events w1 ++ evs3 /\ html_calls evs3 = []).
  { destruct auto_open.
    - injection Hlast as <-. repeat split. now exists [EvBrowser (absolute_uri fname)].
    - injection Hlast as <-. repeat split. exists []. now rewrite app_nil_r. }
  destruct Hw' as (Hh & Hf & Hr & Hw & evs3 & Hev3 & Hcalls3).
  exists ser, (EvOpen fname ModeWrite None :: evs ++ evs3).
  split; [exact Hlen |].
  split; [rewrite Hev3, Hev; cbn; now rewrite <- !app_assoc |].
  split.
  { change (EvOpen fname ModeWrite None :: evs ++ evs3)
      with ([EvOpen fname ModeWrite None] ++ evs ++ evs3).
    rewrite !html_calls_app, Hcalls, Hcalls3. cbn. now rewrite app_nil_r. }
  split; [rewrite Hh, Hheap; reflexivity |].
  split.
  { intros j fig f d Hj Hs. destruct (Hstates j fig f d Hj Hs) as [Hd Hst].
    split; [exact Hd |]. cbn [Nat.add] in Hst. rewrite Hh. exact Hst. }
  split.
  { rewrite Hf, (Hfiles EmptyString).
    - cbn. now rewrite insert_insert_eq.
    - cbn. apply lookup_insert_eq. }
  split; [rewrite Hr, Hdr1; reflexivity | rewrite Hw, Hdw1; reflexivity].
Qed.



End NotebookProperties.

(** ** When the call returns

    The call returns when the file can be opened for writing, every object
    of the list is a figure, plotly accepts the heights and [to_html] does
    not raise. *)
Lemma write_returns path s w :
  write_fault w !! path = None ->
  write path s w
  = (Ok tt, log (set_files w (<[path := default EmptyString (files w !! path) +:+ s]> (files w)))
                (EvWrite path s None)).
Proof. intros Hw. unfold write. now rewrite Hw. Qed.

Lemma fig_to_html_returns `{Library} fig b js w f d :
  heap w !! fig = Some f -> to_html f b js = Ok d ->
  fig_to_html fig b js w = (Ok d, log w (EvToHtml fig (Some f) b js (Ok d))).
Proof. intros Hf Hd. unfold fig_to_html. now rewrite Hf, Hd. Qed.

Lemma loop_body_returns `{Library} fname js sep heights i fig w :
  (forall f b j, exists d, to_html f b j = Ok d) ->
  (forall h, h ∈ default [] heights -> validate_height h = None) ->
  write_fault w !! fname = None ->
  is_Some (heap w !! fig) ->
  exists w1, loop_body fname js sep heights i fig w = (Ok tt, w1).
Proof.
  intros Hhtml Hvalid Hwf [f0 Hf0].
  unfold loop_body. rewrite height_step. unfold bind at 1.
  assert (Hstep : exists w0 f, match default [] heights !! i with
                               | Some h => update_layout fig h
                               | None => ret tt
                               end w = (Ok tt, w0) /\ heap w0 !! fig = Some f /\
                               write_fault w0 !! fname = None).
  { destruct (default [] heights !! i) as [h|] eqn:Hi.
    - unfold update_layout. rewrite Hf0, (Hvalid h (list_elem_of_lookup_2 _ _ _ Hi)).
      eexists. eexists. split; [reflexivity |]. cbn. split; [apply lookup_insert_eq | exact Hwf].
    - exists w, f0. now split. }
  destruct Hstep as (w0 & f & -> & Hf & Hwf0).
  destruct (Nat.eqb i 0).
  - destruct (Hhtml f true js) as [d Hd]. unfold bind.
    rewrite (fig_to_html_returns _ _ _ _ _ _ Hf Hd), write_returns by exact Hwf0.
    now eexists.
  - destruct (Hhtml f false (JsBool false)) as [d Hd].
    destruct (truthy_str sep); unfold bind.
    + rewrite write_returns by exact Hwf0.
      rewrite (fig_to_html_returns _ _ _ _ f d) by assumption.
      rewrite write_returns by exact Hwf0. now eexists.
    + cbn [ret]. rewrite (fig_to_html_returns _ _ _ _ _ _ Hf Hd), write_returns by exact Hwf0.
      now eexists.
Qed.

Lemma write_figs_returns `{Library} fname js sep heights :
  (forall f b j, exists d, to_html f b j = Ok d) ->
  (forall h, h ∈ default [] heights -> validate_height h = None) ->
  forall figs i w,
    write_fault w !! fname = None ->
    (forall fig, fig ∈ figs -> is_Some (heap w !! fig)) ->
    exists w', write_figs fname js sep heights i figs w = (Ok tt, w').
Proof.
  intros Hhtml Hvalid. induction figs as [|fig rest IH]; intros i w Hwf Hfigs; cbn [write_figs].
  - now eexists.
  - destruct (loop_body_returns fname js sep heights i fig w Hhtml Hvalid Hwf
                (Hfigs fig (list_elem_of_here _ _))) as [w1 Hbody].
    unfold bind. rewrite Hbody.
    apply loop_body_ok in Hbody as (f0' & d & evs & _ & _ & Hheap & _ & _ & _ & _ & Hwf1).
    apply IH; [now rewrite Hwf1 |]. intros l Hl.
    rewrite Hheap. destruct (default [] heights !! i) as [h|].
    + destruct (decide (fig = l)) as [->|Hne].
      * rewrite lookup_insert_eq. eauto.
      * rewrite lookup_insert_ne by assumption. apply Hfigs. now apply list_elem_of_further.
    + apply Hfigs. now apply list_elem_of_further.
Qed.

Lemma combine_returns `{Library} figs fname js sep auto_open heights w :
  write_fault w !! fname = None ->
  (forall f b j, exists d, to_html f b j = Ok d) ->
  (forall h, h ∈ default [] heights -> validate_height h = None) ->
  (forall fig, fig ∈ figs -> is_Some (heap w !! fig)) ->
  exists w', combine_plotly_figs_to_html figs fname js sep auto_open heights w = (Ok tt, w').
Proof.
  intros Hden Hhtml Hvalid Hfigs.
  unfold combine_plotly_figs_to_html. unfold bind at 1. unfold open_write. rewrite Hden.
  set (w0 := log (set_files w (<[fname := EmptyString]> (files w))) (EvOpen fname ModeWrite None)).
  destruct (write_figs_returns fname js sep heights Hhtml Hvalid figs 0 w0 Hden Hfigs)
    as [w1 Hw1].
  unfold bind. rewrite Hw1. destruct auto_open; now eexists.
Qed.

(** * The claims of the specification *)

(** C2. For every readable image file, [convert_logo] returns the data URI
    [data:image/png;base64,] followed by a payload that is the base64
    encoding of the file's raw bytes, from which the bytes are recovered;
    and a header added with that logo holds the data URI as the [src] of
    its [img] tag, in whatever accessible file it is added to. *)
Theorem convert_logo_payload (path : string) (w : World) (c : string) :
  read_fault w !! path = None ->
  files w !! path = Some c ->
  exists payload : string,
    (convert_logo path w).1 = Ok ("data:image/png;base64," +:+ payload) /\
    list_byte_of_string payload = b64encode (list_byte_of_string c) /\
    b64decode (list_byte_of_string payload) = Some (list_byte_of_string c) /\
    forall html_file title w1 old,
      read_fault w1 !! html_file = None ->
      write_fault w1 !! html_file = None ->
      files w1 !! html_file = Some old ->
      exists pre post,
        files (add_html_header html_file ("data:image/png;base64," +:+ payload) title w1).2
          !! html_file
        = Some (pre +:+ ("<img src=" +:+ dq +:+ ("data:image/png;base64," +:+ payload) +:+ dq)
                    +:+ post).
Proof.
  intros Hden Hfile.
  exists (string_of_list_byte (b64encode (list_byte_of_string c))).
  rewrite (convert_logo_readable _ _ _ Hden Hfile), list_byte_of_string_of_list_byte.
  split; [reflexivity |]. split; [reflexivity |].
  split; [apply b64decode_b64encode |].
  intros html_file title w1 old Hdr Hdw Hold.
  destruct (add_html_header_accessible html_file
              ("data:image/png;base64," +:+ string_of_list_byte (b64encode (list_byte_of_string c)))
              title w1 old Hdr Hdw Hold) as (w' & Hrun & Hfiles & _).
  rewrite Hrun. cbn [snd]. rewrite Hfiles, lookup_insert_eq.
  destruct html_content_shell as (pre & mid & post & Hshell).
  rewrite Hshell. exists pre. eexists. f_equal.
  rewrite !app_assoc_s. reflexivity.
Qed.

Lemma convert_logo_payload_witness :
  exists payload : string,
    (convert_logo "yhat.png" demo_world).1 = Ok ("data:image/png;base64," +:+ payload) /\
    list_byte_of_string payload = b64encode (list_byte_of_string "foobar") /\
    b64decode (list_byte_of_string payload) = Some (list_byte_of_string "foobar") /\
    forall html_file title w1 old,
      read_fault w1 !! html_file = None ->
      write_fault w1 !! html_file = None ->
      files w1 !! html_file = Some old ->
      exists pre post,
        files (add_html_header html_file ("data:image/png;base64," +:+ payload) title w1).2
          !! html_file
        = Some (pre +:+ ("<img src=" +:+ dq +:+ ("data:image/png;base64," +:+ payload) +:+ dq)
                    +:+ post).
Proof. apply (convert_logo_payload "yhat.png" demo_world "foobar"); reflexivity. Defined.

(** C10. For every readable file, whatever its content, [convert_logo]
    returns a string that starts with [data:image/png;base64,]. *)
Theorem convert_logo_prefix (path : string) (w : World) (c : string) :
  read_fault w !! path = None ->
  files w !! path = Some c ->
  exists s rest, (convert_logo path w).1 = Ok s /\
    s = "data:image/png;base64," +:+ rest /\
    String.prefix "data:image/png;base64," s = true.
Proof.
  intros Hden Hfile. rewrite (convert_logo_readable _ _ _ Hden Hfile).
  eexists. eexists. split; [reflexivity |]. split; [reflexivity | apply prefix_app_s].
Qed.

Lemma convert_logo_prefix_witness :
  exists s rest, (convert_logo "old.html" demo_world).1 = Ok s /\
    s = "data:image/png;base64," +:+ rest /\
    String.prefix "data:image/png;base64," s = true.
Proof. apply (convert_logo_prefix "old.html" demo_world "<p>old</p>"); reflexivity. Defined.





(** C6. Each of the three operations raises exactly when one of the calls
    it makes (opening, reading or writing a file, a plotly call) fails, and
    then raises the exception of that call, which is the last call it makes:
    nothing is caught, retried or turned into a result.  [convert_logo] on a
    path with no file raises the file-not-found error of [open];
    [combine_plotly_figs_to_html] on a path that cannot be opened for
    writing raises the error of [open]. *)
Theorem errors_raise_natively `{Library} :
  (forall path, raises_natively (convert_logo path)) /\
  (forall html_file logo title, raises_natively (add_html_header html_file logo title)) /\
  (forall figs fname js sep auto_open heights,
     raises_natively (combine_plotly_figs_to_html figs fname js sep auto_open heights)) /\
  (forall path w, read_fault w !! path = None -> files w !! path = None ->
     (convert_logo path w).1 = Raise (FileNotFoundError path)) /\
  (forall figs fname js sep auto_open heights w e,
     write_fault w !! fname = Some (AtOpen e) ->
     (combine_plotly_figs_to_html figs fname js sep auto_open heights w).1 = Raise e).
Proof.
  split; [exact native_convert_logo |].
  split; [exact native_add_html_header |].
  split; [exact native_combine |].
  split.
  - intros path w Hden Hfile. unfold convert_logo, read_bytes, bind, read_file.
    now rewrite Hden, Hfile.
  - intros figs fname js sep auto_open heights w e Hden.
    unfold combine_plotly_figs_to_html, bind, open_write. now rewrite Hden.
Qed.

(** C8. For the empty list of figures, on a path that can be opened for
    writing, [combine_plotly_figs_to_html] returns and leaves the file
    empty: it opens the file and writes nothing, no separator either. *)
Theorem combine_empty `{Library} (fname : string) (js : IncludeJs) (sep : option string)
    (auto_open : bool) (heights : option (list Z)) (w : World) :
  write_fault w !! fname = None ->
  exists w', combine_plotly_figs_to_html [] fname js sep auto_open heights w = (Ok tt, w') /\
    files w' !! fname = Some EmptyString /\
    files w' = <[fname := EmptyString]> (files w) /\
    heap w' = heap w /\
    events w' = events w ++ EvOpen fname ModeWrite None
                  :: (if auto_open then [EvBrowser (absolute_uri fname)] else []).
Proof.
  intros Hden. unfold combine_plotly_figs_to_html, bind, open_write. rewrite Hden.
  cbn [write_figs ret]. destruct auto_open; eexists; (split; [reflexivity |]); cbn.
  - rewrite lookup_insert_eq, <- app_assoc. repeat split.
  - rewrite lookup_insert_eq. repeat split.
Qed.

Lemma combine_empty_witness :
  exists w', combine_plotly_figs_to_html [] "combined.html" JsCdn (Some "<hr>") true
               (Some [400%Z]) demo_world = (Ok tt, w') /\
    files w' !! "combined.html" = Some EmptyString /\
    files w' = <["combined.html" := EmptyString]> (files demo_world) /\
    heap w' = heap demo_world /\
    events w' = events demo_world ++ EvOpen "combined.html" ModeWrite None
                  :: [EvBrowser (absolute_uri "combined.html")].
Proof.
  apply (combine_empty "combined.html" JsCdn (Some "<hr>") true (Some [400%Z]) demo_world).
  reflexivity.
Defined.


Lemma combine_heap `{Library} figs fname js sep auto_open heights w :
  exists n, heap (combine_plotly_figs_to_html figs fname js sep auto_open heights w).2
            = set_heights (heap w) (take n (zip figs (default [] heights))).
Proof.
  unfold combine_plotly_figs_to_html. unfold bind at 1.
  destruct (open_write fname w) as [[[]|e] w0] eqn:Hopen.
  - apply open_write_ok in Hopen as ->.
    set (w0 := log (set_files w (<[fname := EmptyString]> (files w)))
                   (EvOpen fname ModeWrite None)).
    destruct (write_figs_heap fname js sep heights figs 0 w0) as [n Hn].
    exists n. unfold bind.
    destruct (write_figs fname js sep heights 0 figs w0) as [[[]|e] w1]; cbn in Hn |- *.
    + now destruct auto_open.
    + exact Hn.
  - exists 0. unfold open_write in Hopen.
    destruct (write_fault w !! fname) as [[e'|e']|]; now injection Hopen as _ <-.
Qed.

Lemma combine_heap_notin `{Library} figs fname js sep auto_open heights w fig :
  fig ∉ take (py_len heights) figs ->
  heap (combine_plotly_figs_to_html figs fname js sep auto_open heights w).2 !! fig
  = heap w !! fig.
Proof.
  intros Hfig. destruct (combine_heap figs fname js sep auto_open heights w) as [n Hn].
  rewrite Hn. apply set_heights_notin.
  intros Hin. apply Hfig. rewrite fmap_take, zip_fst_take in Hin.
  apply subseteq_take in Hin. exact Hin.
Qed.

(** C4 (as amended). [combine_plotly_figs_to_html] changes the caller's
    figures, and only by the height override: after the call the heap is the
    one before it with the layout heights of the figures at the indices
    [i < min(k, N)] that were reached set to [heights[i]], in index order
    (all of these indices when the call returns).  So with [heights] [None]
    or empty every figure is unchanged, a figure that is at none of these
    indices is unchanged, and nothing but the layout height ever changes. *)
Theorem combine_figures_frame `{Library} (figs : list loc) (fname : string) (js : IncludeJs)
    (sep : option string) (auto_open : bool) (heights : option (list Z)) (w : World) :
  let run := combine_plotly_figs_to_html figs fname js sep auto_open heights w in
  (exists n, heap run.2 = set_heights (heap w) (take n (zip figs (default [] heights)))) /\
  (run.1 = Ok tt -> heap run.2 = set_heights (heap w) (zip figs (default [] heights))) /\
  (truthy_list heights = false -> heap run.2 = heap w) /\
  (forall fig, fig ∉ take (py_len heights) figs -> heap run.2 !! fig = heap w !! fig) /\
  (forall fig, fig_data <$> heap run.2 !! fig = fig_data <$> heap w !! fig).
Proof.
  intros run. destruct (combine_heap figs fname js sep auto_open heights w) as [n Hn].
  fold run in Hn.
  split; [now exists n |]. split; [|split; [|split]].
  - intros Hok. destruct run as [r w'] eqn:Hrun. cbn in Hok. subst r.
    apply combine_ok in Hrun as (ser & evs & _ & _ & _ & Hheap & _). exact Hheap.
  - intros Hfalse. rewrite Hn.
    assert (Hnil : default [] heights = []) by now destruct heights as [[|h hs]|].
    rewrite Hnil, zip_nil_r. now rewrite take_nil.
  - intros fig Hfig. now apply combine_heap_notin.
  - intros fig. rewrite Hn. apply set_heights_data.
Qed.

(** C4 (as stated) fails: called with one figure and [heights=[400]], the
    figure, whose layout height was not set, leaves the call with layout
    height 400. *)
Lemma figures_read_only_fails :
  let run := combine_plotly_figs_to_html [1%positive] "combined.html" JsCdn None false
               (Some [400%Z]) demo_world in
  heap demo_world !! 1%positive = Some (mkFigure "fig1" None) /\
  heap run.2 !! 1%positive = Some (mkFigure "fig1" (Some 400%Z)) /\
  ~ figures_read_only.
Proof.
  split; [reflexivity |]. split; [vm_compute; reflexivity |].
  intros Hclaim.
  specialize (Hclaim demo_library [1%positive] "combined.html" JsCdn None false
                (Some [400%Z]) demo_world 1%positive).
  assert (Hin : 1%positive ∈ [1%positive]) by apply list_elem_of_here.
  specialize (Hclaim Hin). vm_compute in Hclaim. discriminate.
Qed.

(** C5 (as amended). When the call returns, the figure at each index
    [i < min(k, N)] is serialized with its layout height set to
    [heights[i]] and otherwise as it was before the call.  At an index
    [i >= k] the figure is serialized as the object stands once the
    overrides are done, which is how it stands after the call: as before the
    call when the object is at none of the first [k] indices; when it is
    also there, with the height set at the last of them. *)
Theorem heights_override `{Library} (figs : list loc) (fname : string) (js : IncludeJs)
    (sep : option string) (auto_open : bool) (heights : option (list Z)) (w w' : World) :
  combine_plotly_figs_to_html figs fname js sep auto_open heights w = (Ok tt, w') ->
  exists (ser : list (Figure * string)) (evs : list Event),
    events w' = events w ++ evs /\
    html_calls evs = calls_from js 0 figs ser /\
    length ser = length figs /\
    forall i fig f d, figs !! i = Some fig -> ser !! i = Some (f, d) ->
      match default [] heights !! i with
      | Some h =>
          layout_height f = Some h /\
          exists f0, heap w !! fig = Some f0 /\ f = with_height f0 h
      | None =>
          heap w' !! fig = Some f /\
          (fig ∉ take (py_len heights) figs -> heap w !! fig = Some f) /\
          (forall j h f0,
             figs !! j = Some fig -> default [] heights !! j = Some h ->
             (forall j', j < j' -> figs !! j' = Some fig -> default [] heights !! j' = None) ->
             heap w !! fig = Some f0 ->
             f = with_height f0 h)
      end.
Proof.
  intros Hrun.
  assert (Hnotin : forall fig, fig ∉ take (py_len heights) figs ->
                     heap w' !! fig = heap w !! fig).
  { intros fig Hfig.
    pose proof (combine_heap_notin figs fname js sep auto_open heights w fig Hfig) as Hh.
    now rewrite Hrun in Hh. }
  apply combine_ok in Hrun
    as (ser & evs & Hlen & Hev & Hcalls & Hheap & Hstates & _).
  exists ser, evs. do 3 (split; [assumption |]).
  intros i fig f d Hi Hs. destruct (Hstates i fig f d Hi Hs) as [_ Hst].
  destruct (default [] heights !! i) as [h|].
  - destruct Hst as (f0 & Hf0 & ->). split; [reflexivity | eauto].
  - split; [exact Hst |]. split.
    + intros Hfig. now rewrite <- (Hnotin fig Hfig).
    + intros j h f0 Hj Hh Hlast Hf0.
      rewrite Hheap, (set_heights_last figs _ _ j fig h f0 Hj Hh Hlast Hf0) in Hst.
      now injection Hst.
Qed.

(** C5 (as stated) fails when a figure object is listed twice: called with
    [[fig1, fig1]] and [heights=[400]], the call returns, and at index 1,
    past the heights, the figure is serialized with layout height 400, set
    at index 0, where it had none before the call. *)
Lemma unlisted_height_as_given_fails :
  let run := combine_plotly_figs_to_html [1%positive; 1%positive] "combined.html"
               JsCdn None false (Some [400%Z]) demo_world in
  run.1 = Ok tt /\
  heap demo_world !! 1%positive = Some (mkFigure "fig1" None) /\
  html_calls (events run.2)
  = [EvToHtml 1%positive (Some (mkFigure "fig1" (Some 400%Z))) true JsCdn
       (Ok "<html><script><div fig1:mid></html>");
     EvToHtml 1%positive (Some (mkFigure "fig1" (Some 400%Z))) false (JsBool false)
       (Ok "<div fig1:mid>")] /\
  ~ unlisted_height_as_given.
Proof.
  split; [vm_compute; reflexivity |]. split; [reflexivity |].
  split; [vm_compute; reflexivity |].
  intros Hclaim.
  pose (run := combine_plotly_figs_to_html [1%positive; 1%positive] "combined.html"
                 JsCdn None false (Some [400%Z]) demo_world).
  specialize (Hclaim demo_library [1%positive; 1%positive] "combined.html" JsCdn None false
                [400%Z] demo_world run.2 (events run.2)
                [(mkFigure "fig1" (Some 400%Z), "<html><script><div fig1:mid></html>");
                 (mkFigure "fig1" (Some 400%Z), "<div fig1:mid>")]
                1 1%positive (mkFigure "fig1" (Some 400%Z)) "<div fig1:mid>"
                (mkFigure "fig1" None)).
  assert (Hne : [400%Z] <> []) by discriminate.
  specialize (Hclaim Hne). vm_compute in Hclaim.
  specialize (Hclaim eq_refl eq_refl eq_refl eq_refl eq_refl).
  assert (Hle : 1 <= 1) by lia.
  specialize (Hclaim Hle eq_refl). discriminate.
Qed.

(** ** Runs from worlds that agree *)

Lemma same_ret {A} figs path (a : A) : same_run figs path (ret a).
Proof.
  intros w1 w2 Hag. split; [reflexivity |]. split; [exact Hag |].
  exists []. now rewrite !app_nil_r.
Qed.

Lemma same_bind {A B} figs path (m : M A) (k : A -> M B) :
  same_run figs path m -> (forall a, same_run figs path (k a)) ->
  same_run figs path (bind m k).
Proof.
  intros Hm Hk w1 w2 Hag. unfold bind.
  destruct (Hm w1 w2 Hag) as (Hres & Hag' & evs1 & Hev1 & Hev2).
  destruct (m w1) as [r1 v1], (m w2) as [r2 v2]. cbn in *. subst r2.
  destruct r1 as [a|e].
  - destruct (Hk a v1 v2 Hag') as (Hres' & Hag'' & evs2 & Hev1' & Hev2').
    split; [exact Hres' |]. split; [exact Hag'' |].
    exists (evs1 ++ evs2). rewrite Hev1', Hev2', Hev1, Hev2. now rewrite !app_assoc.
  - split; [reflexivity |]. split; [exact Hag' |]. now exists evs1.
Qed.

Lemma agree_log figs path w1 w2 ev1 ev2 :
  agree figs path w1 w2 -> agree figs path (log w1 ev1) (log w2 ev2).
Proof. intros Hag. exact Hag. Qed.

Lemma same_read_file figs path mode : same_run figs path (read_file path mode).
Proof.
  intros w1 w2 Hag. pose proof Hag as (Hheap & Hfiles & Hdr & Hdw). unfold read_file.
  rewrite <- Hdr, <- Hfiles.
  destruct (read_fault w1 !! path) as [[e|e]|] eqn:E1, (files w1 !! path) as [c|] eqn:E2;
    cbn [fst snd]; (split; [reflexivity |]);
    (split; [repeat apply agree_log; exact Hag |]).
  - now eexists.
  - now eexists.
  - exists [EvOpen path mode None; EvRead path (Raise e)]. cbn. now rewrite <- !app_assoc.
  - now eexists.
  - exists [EvOpen path mode None; EvRead path (Ok c)]. cbn. now rewrite <- !app_assoc.
  - now eexists.
Qed.

Lemma agree_set_files figs path w1 w2 c :
  agree figs path w1 w2 ->
  agree figs path (set_files w1 (<[path := c]> (files w1)))
                  (set_files w2 (<[path := c]> (files w2))).
Proof.
  intros (Hheap & Hfiles & Hdr & Hdw). split; [exact Hheap |]. cbn.
  rewrite !lookup_insert_eq. repeat split; assumption.
Qed.

Lemma same_open_write figs path : same_run figs path (open_write path).
Proof.
  intros w1 w2 Hag. pose proof Hag as (Hheap & Hfiles & Hdr & Hdw).
  unfold open_write. rewrite <- Hdw.
  destruct (write_fault w1 !! path) as [[e|e]|] eqn:E1; cbn [fst snd];
    (split; [reflexivity |]); (split; [|now eexists]).
  - now apply agree_log.
  - now apply agree_log, agree_set_files.
  - now apply agree_log, agree_set_files.
Qed.

Lemma same_write figs path s : same_run figs path (write path s).
Proof.
  intros w1 w2 Hag. pose proof Hag as (Hheap & Hfiles & Hdr & Hdw). unfold write.
  rewrite <- Hdw, <- Hfiles.
  destruct (write_fault w1 !! path) as [[e|e]|] eqn:E1; cbn [fst snd];
    (split; [reflexivity |]); (split; [|now eexists]).
  - now apply agree_log, agree_set_files.
  - now apply agree_log.
  - now apply agree_log, agree_set_files.
Qed.

Lemma same_update_layout `{Library} figs path fig h :
  fig ∈ figs -> same_run figs path (update_layout fig h).
Proof.
  intros Hfig w1 w2 Hag. pose proof Hag as (Hheap & Hfiles & Hdr & Hdw).
  unfold update_layout. rewrite <- (Hheap fig Hfig).
  destruct (heap w1 !! fig) as [f0|] eqn:E1;
    [destruct (validate_height h) as [e|] |]; cbn [fst snd].
  - split; [reflexivity |]. split; [now apply agree_log |]. now eexists.
  - split; [reflexivity |]. split; [|now eexists]. apply agree_log.
    split; [|repeat split; cbn; congruence]. intros l Hl. cbn.
    destruct (decide (fig = l)) as [->|Hne].
    + now rewrite !lookup_insert_eq.
    + rewrite !lookup_insert_ne by assumption. now apply Hheap.
  - split; [reflexivity |]. split; [now apply agree_log |]. now eexists.
Qed.

Lemma same_fig_to_html `{Library} figs path fig b js :
  fig ∈ figs -> same_run figs path (fig_to_html fig b js).
Proof.
  intros Hfig w1 w2 Hag. pose proof Hag as (Hheap & Hfiles & Hdr & Hdw).
  unfold fig_to_html. rewrite <- (Hheap fig Hfig).
  destruct (heap w1 !! fig) as [f|] eqn:E1; cbn [fst snd].
  - split; [reflexivity |]. split; [now apply agree_log |]. now eexists.
  - split; [reflexivity |]. split; [now apply agree_log |]. now eexists.
Qed.

Lemma same_webbrowser_open `{Library} figs path uri :
  same_run figs path (webbrowser_open uri).
Proof.
  intros w1 w2 Hag. unfold webbrowser_open. cbn [fst snd].
  split; [reflexivity |]. split; [now apply agree_log |]. now eexists.
Qed.

Lemma same_loop_body `{Library} figs fname js sep heights i fig :
  fig ∈ figs -> same_run figs fname (loop_body fname js sep heights i fig).
Proof.
  intros Hfig. unfold loop_body. rewrite height_step.
  apply same_bind.
  { destruct (default [] heights !! i); [now apply same_update_layout | apply same_ret]. }
  intros _. destruct (Nat.eqb i 0).
  - apply same_bind; [now apply same_fig_to_html | intros s; apply same_write].
  - apply same_bind.
    { destruct (truthy_str sep); [apply same_write | apply same_ret]. }
    intros _. apply same_bind; [now apply same_fig_to_html | intros s; apply same_write].
Qed.

Lemma same_write_figs `{Library} figs fname js sep heights rest :
  rest ⊆ figs -> forall i, same_run figs fname (write_figs fname js sep heights i rest).
Proof.
  induction rest as [|fig rest IH]; intros Hsub i; cbn [write_figs].
  - apply same_ret.
  - apply same_bind.
    + apply same_loop_body. apply Hsub. apply list_elem_of_here.
    + intros _. apply IH. intros l Hl. apply Hsub. now apply list_elem_of_further.
Qed.

(** C7. Each operation is a function of what it is given and keeps nothing
    between calls: from two worlds that agree on the figures of the list
    and on the file (content and accessibility), it ends the same way,
    makes the same calls and leaves the same file content; and
    [convert_logo] on two readable files with the same bytes returns the
    same string. *)
Theorem operations_deterministic `{Library} :
  (forall path, same_run [] path (convert_logo path)) /\
  (forall html_file logo title,
     same_run [] html_file (add_html_header html_file logo title)) /\
  (forall figs fname js sep auto_open heights,
     same_run figs fname (combine_plotly_figs_to_html figs fname js sep auto_open heights)) /\
  (forall path1 path2 w1 w2 c,
     read_fault w1 !! path1 = None -> files w1 !! path1 = Some c ->
     read_fault w2 !! path2 = None -> files w2 !! path2 = Some c ->
     (convert_logo path1 w1).1 = (convert_logo path2 w2).1).
Proof.
  split; [|split; [|split]].
  - intros path. unfold convert_logo, read_bytes.
    apply same_bind; [|intros image].
    + apply same_bind; [apply same_read_file | intros c; apply same_ret].
    + rewrite decode_b64encode.
      apply same_bind; [apply (same_ret _ _ _) | intros s; apply same_ret].
  - intros html_file logo title. unfold add_html_header, read_text.
    apply same_bind; [apply same_read_file | intros c].
    apply same_bind; [apply same_open_write | intros _; apply same_write].
  - intros figs fname js sep auto_open heights. unfold combine_plotly_figs_to_html.
    apply same_bind; [apply same_open_write | intros _].
    apply same_bind; [now apply same_write_figs | intros _].
    destruct auto_open; [apply same_webbrowser_open | apply same_ret].
  - intros path1 path2 w1 w2 c Hd1 Hf1 Hd2 Hf2.
    now rewrite (convert_logo_readable _ _ _ Hd1 Hf1), (convert_logo_readable _ _ _ Hd2 Hf2).
Qed.

(** ** The theorems with hypotheses, at the example world *)


Lemma heights_override_witness :
  let w' := (combine_plotly_figs_to_html [1; 2; 3]%positive "combined.html" JsCdn
               (Some "<hr>") false (Some [400; 200]%Z) demo_world).2 in
  exists (ser : list (Figure * string)) (evs : list Event),
    events w' = events demo_world ++ evs /\
    html_calls evs = calls_from JsCdn 0 [1; 2; 3]%positive ser /\
    length ser = length [1; 2; 3]%positive /\
    forall i fig f d, [1; 2; 3]%positive !! i = Some fig -> ser !! i = Some (f, d) ->
      match default [] (Some [400; 200]%Z) !! i with
      | Some h =>
          layout_height f = Some h /\
          exists f0, heap demo_world !! fig = Some f0 /\ f = with_height f0 h
      | None =>
          heap w' !! fig = Some f /\
          (fig ∉ take (py_len (Some [400; 200]%Z)) [1; 2; 3]%positive ->
           heap demo_world !! fig = Some f) /\
          (forall j h f0,
             [1; 2; 3]%positive !! j = Some fig ->
             default [] (Some [400; 200]%Z) !! j = Some h ->
             (forall j', j < j' -> [1; 2; 3]%positive !! j' = Some fig ->
                default [] (Some [400; 200]%Z) !! j' = None) ->
             heap demo_world !! fig = Some f0 ->
             f = with_height f0 h)
      end.
Proof.
  apply (@heights_override demo_library [1; 2; 3]%positive "combined.html" JsCdn
           (Some "<hr>") false (Some [400; 200]%Z) demo_world).
  vm_compute. reflexivity.
Defined.

Lemma errors_raise_natively_witness :
  (convert_logo "nowhere.png" demo_world).1 = Raise (FileNotFoundError "nowhere.png") /\
  (combine_plotly_figs_to_html [1%positive] "/proc/x.html" JsCdn None false None demo_world).1
  = Raise (PermissionError "/proc/x.html").
Proof.
  destruct (@errors_raise_natively demo_library) as (_ & _ & _ & Hlogo & Hcombine).
  split; [apply Hlogo | apply Hcombine]; reflexivity.
Defined.

Lemma operations_deterministic_witness :
  (convert_logo "yhat.png" demo_world).1
  = (convert_logo "copy.png"
       {| files := {[ "copy.png" := "foobar" ]}; read_fault := ∅; write_fault := ∅;
          heap := ∅; events := [EvBrowser "earlier"] |}).1.
Proof.
  destruct (@operations_deterministic demo_library) as (_ & _ & _ & Hsame).
  apply (Hsame "yhat.png" "copy.png" _ _ "foobar"); reflexivity.
Defined.

(** * Further properties of the three functions *)

(** ** [convert_logo] *)

Lemma convert_logo_ok path w s w' :
  convert_logo path w = (Ok s, w') ->
  exists c, read_fault w !! path = None /\ files w !! path = Some c /\
    s = "data:image/png;base64," +:+ string_of_list_byte (b64encode (list_byte_of_string c)) /\
    w' = log (log w (EvOpen path ModeReadBinary None)) (EvRead path (Ok c)).
Proof.
  unfold convert_logo, read_bytes, bind, read_file.
  destruct (read_fault w !! path) as [[e|e]|], (files w !! path) as [c|]; try discriminate.
  cbn [ret]. rewrite decode_b64encode. cbn. intros [= <- <-]. eauto.
Qed.

Lemma b64encode_inj (bs1 bs2 : list byte) : b64encode bs1 = b64encode bs2 -> bs1 = bs2.
Proof.
  intros Heq. apply (f_equal b64decode) in Heq.
  rewrite !b64decode_b64encode in Heq. now injection Heq.
Qed.

(** Nothing of the image is lost: two readable files get the same data URI
    exactly when they hold the same bytes. *)
Theorem convert_logo_injective (path1 path2 : string) (w1 w2 : World) (c1 c2 : string) :
  read_fault w1 !! path1 = None -> files w1 !! path1 = Some c1 ->
  read_fault w2 !! path2 = None -> files w2 !! path2 = Some c2 ->
  (convert_logo path1 w1).1 = (convert_logo path2 w2).1 <-> c1 = c2.
Proof.
  intros Hr1 Hf1 Hr2 Hf2.
  rewrite (convert_logo_readable _ _ _ Hr1 Hf1), (convert_logo_readable _ _ _ Hr2 Hf2).
  cbn [fst]. split; [|now intros ->].
  intros Heq. assert (Hs : string_of_list_byte (b64encode (list_byte_of_string c1))
                         = string_of_list_byte (b64encode (list_byte_of_string c2))).
  { apply (inj (String.app "data:image/png;base64,")). congruence. }
  apply (f_equal list_byte_of_string) in Hs.
  rewrite !list_byte_of_string_of_list_byte in Hs.
  apply b64encode_inj in Hs. apply (f_equal string_of_list_byte) in Hs.
  now rewrite !string_of_list_byte_of_string in Hs.
Qed.

Lemma convert_logo_injective_witness :
  (convert_logo "yhat.png" demo_world).1 = (convert_logo "old.html" demo_world).1
  <-> "foobar" = "<p>old</p>".
Proof.
  apply (convert_logo_injective "yhat.png" "old.html" demo_world demo_world); reflexivity.
Defined.

Lemma string_of_list_byte_cons (b : byte) (l : list byte) :
  string_of_list_byte (b :: l) = String (ascii_of_byte b) (string_of_list_byte l).
Proof. reflexivity. Qed.

Lemma length_string_of_list_byte (l : list byte) :
  String.length (string_of_list_byte l) = length l.
Proof.
  induction l as [|b l IH]; [reflexivity |].
  rewrite string_of_list_byte_cons. cbn. now rewrite IH.
Qed.

Lemma length_list_byte_of_string (s : string) :
  length (list_byte_of_string s) = String.length s.
Proof.
  rewrite <- (string_of_list_byte_of_string s) at 2.
  now rewrite length_string_of_list_byte.
Qed.

Lemma b64encode_length (bs : list byte) :
  length (b64encode bs) = (4 * ((length bs + 2) / 3))%nat.
Proof.
  induction bs as [| a | a b | a b c l IH] using three_step_ind; try reflexivity.
  cbn [b64encode length]. rewrite IH.
  replace (S (S (S (length l))) + 2)%nat with ((length l + 2) + 1 * 3)%nat by lia.
  rewrite Nat.div_add by lia. lia.
Qed.

Lemma all_chars_app (P : ascii -> bool) (a b : string) :
  all_chars P (a +:+ b) = all_chars P a && all_chars P b.
Proof.
  induction a as [|x a IH]; [reflexivity |].
  rewrite app_cons_s. cbn. now rewrite IH, andb_assoc.
Qed.

Lemma all_chars_impl (P Q : ascii -> bool) (s : string) :
  (forall c, P c = true -> Q c = true) -> all_chars P s = true -> all_chars Q s = true.
Proof.
  intros HPQ. induction s as [|x s IH]; [reflexivity |]. cbn.
  intros Hall. apply andb_prop in Hall as [Hx Hs]. now rewrite (HPQ x Hx), (IH Hs).
Qed.

Lemma b64_digits_text :
  forallb (fun n => b64_text_char (ascii_of_byte (b64_digit n))) (map N.of_nat (seq 0 64)) = true.
Proof. vm_compute. reflexivity. Qed.

Lemma b64_digit_text (n : N) : b64_text_char (ascii_of_byte (b64_digit n)) = true.
Proof.
  destruct (N.lt_ge_cases n 64) as [Hn|Hn].
  - pose proof b64_digits_text as Hall. rewrite forallb_forall in Hall. apply Hall.
    apply in_map_iff. exists (N.to_nat n). split; [apply N2Nat.id |]. apply in_seq. lia.
  - unfold b64_digit. rewrite get_ge; [reflexivity |].
    change (String.length b64_alphabet) with 64%nat. lia.
Qed.

Lemma b64encode_text (bs : list byte) :
  all_chars b64_text_char (string_of_list_byte (b64encode bs)) = true.
Proof.
  induction bs as [| a | a b | a b c l IH] using three_step_ind;
    cbn [b64encode]; rewrite ?string_of_list_byte_cons; cbn [all_chars];
    rewrite ?b64_digit_text, ?IH; reflexivity.
Qed.

Lemma b64_text_char_not_quote (c : ascii) : b64_text_char c = true -> not_quote c = true.
Proof.
  unfold not_quote. destruct (Ascii.eqb_spec c "034") as [->|Hne]; [|reflexivity].
  vm_compute. discriminate.
Qed.

(** The data URI of a file of [n] bytes is the prefix followed by
    [4 * ceil(n / 3)] characters, all of them base64 digits or padding; it
    holds no double quote, so it cannot end the [src] attribute the header
    puts it in. *)
Theorem convert_logo_text (path : string) (w : World) (c : string) :
  read_fault w !! path = None -> files w !! path = Some c ->
  exists payload,
    (convert_logo path w).1 = Ok ("data:image/png;base64," +:+ payload) /\
    String.length payload = (4 * ((String.length c + 2) / 3))%nat /\
    all_chars b64_text_char payload = true /\
    all_chars not_quote ("data:image/png;base64," +:+ payload) = true.
Proof.
  intros Hr Hf. rewrite (convert_logo_readable _ _ _ Hr Hf).
  exists (string_of_list_byte (b64encode (list_byte_of_string c))).
  split; [reflexivity |].
  split; [now rewrite length_string_of_list_byte, b64encode_length, length_list_byte_of_string |].
  split; [apply b64encode_text |].
  rewrite all_chars_app. apply andb_true_intro. split; [vm_compute; reflexivity |].
  apply (all_chars_impl b64_text_char); [apply b64_text_char_not_quote | apply b64encode_text].
Qed.

Lemma convert_logo_text_witness :
  exists payload,
    (convert_logo "yhat.png" demo_world).1 = Ok ("data:image/png;base64," +:+ payload) /\
    String.length payload = (4 * ((String.length "foobar" + 2) / 3))%nat /\
    all_chars b64_text_char payload = true /\
    all_chars not_quote ("data:image/png;base64," +:+ payload) = true.
Proof. apply (convert_logo_text "yhat.png" demo_world "foobar"); reflexivity. Defined.

(** ** [add_html_header] *)







(** ** [combine_plotly_figs_to_html]: the trace and the file, whatever the outcome *)

Lemma written_app (evs1 evs2 : list Event) :
  written (evs1 ++ evs2) = written evs1 +:+ written evs2.
Proof.
  induction evs1 as [|ev evs1 IH]; [reflexivity |].
  destruct ev as [| | p s [e|] | | |]; cbn [app written]; rewrite IH;
    now rewrite ?app_assoc_s.
Qed.

Lemma loop_like_ret {A} path (a : A) : loop_like path (ret a).
Proof.
  intros w. exists []. cbn. rewrite app_nil_r. repeat split; [constructor |].
  intros c Hc. rewrite app_nil_r_s. symmetry. now apply insert_id.
Qed.

Lemma loop_like_bind {A B} path (m : M A) (k : A -> M B) :
  loop_like path m -> (forall a, loop_like path (k a)) -> loop_like path (bind m k).
Proof.
  intros Hm Hk w. unfold bind.
  destruct (Hm w) as (evs1 & Hev1 & Hall1 & Hr1 & Hw1 & Hfiles1).
  destruct (m w) as [[a|e] w1]; cbn [fst snd] in *; [|now exists evs1].
  destruct (Hk a w1) as (evs2 & Hev2 & Hall2 & Hr2 & Hw2 & Hfiles2).
  exists (evs1 ++ evs2).
  split; [now rewrite Hev2, Hev1, <- app_assoc |].
  split; [now apply Forall_app |].
  split; [congruence |]. split; [congruence |].
  intros c Hc. rewrite (Hfiles2 (c +:+ written evs1)).
  - rewrite (Hfiles1 c Hc), insert_insert_eq, written_app. now rewrite app_assoc_s.
  - rewrite (Hfiles1 c Hc). apply lookup_insert_eq.
Qed.

Lemma loop_event_write path s err : loop_event path (EvWrite path s err) = true.
Proof. apply String.eqb_refl. Qed.

Lemma loop_like_write path s : loop_like path (write path s).
Proof.
  intros w. unfold write.
  destruct (write_fault w !! path) as [[e|e]|]; cbn [fst snd];
    eexists [_]; (split; [reflexivity |]);
    (split; [repeat constructor; apply loop_event_write |]);
    (split; [reflexivity |]); (split; [reflexivity |]); intros c Hc; cbn.
  - now rewrite Hc, app_nil_r_s.
  - rewrite app_nil_r_s. symmetry. now apply insert_id.
  - now rewrite Hc, app_nil_r_s.
Qed.

Lemma loop_like_quiet {A} path (m : M A) :
  (forall w, exists ev, loop_event path ev = true /\ written [ev] = EmptyString /\
     events (m w).2 = events w ++ [ev] /\ files (m w).2 = files w /\
     read_fault (m w).2 = read_fault w /\ write_fault (m w).2 = write_fault w) ->
  loop_like path m.
Proof.
  intros Hm w. destruct (Hm w) as (ev & Hev & Hwr & Hevs & Hf & Hr & Hw).
  exists [ev]. repeat split; try assumption; [repeat constructor; assumption |].
  intros c Hc. rewrite Hwr, app_nil_r_s, Hf. symmetry. now apply insert_id.
Qed.

Lemma loop_like_update_layout `{Library} path fig h : loop_like path (update_layout fig h).
Proof.
  apply loop_like_quiet. intros w. unfold update_layout.
  destruct (heap w !! fig) as [f|]; [destruct (validate_height h) |];
    eexists (EvUpdateLayout _ _ _); repeat split.
Qed.

Lemma loop_like_fig_to_html `{Library} path fig b js : loop_like path (fig_to_html fig b js).
Proof.
  apply loop_like_quiet. intros w. unfold fig_to_html.
  destruct (heap w !! fig) as [f|]; eexists (EvToHtml _ _ _ _ _); repeat split.
Qed.

Lemma loop_like_loop_body `{Library} fname js sep heights i fig :
  loop_like fname (loop_body fname js sep heights i fig).
Proof.
  unfold loop_body. rewrite height_step.
  apply loop_like_bind.
  { destruct (default [] heights !! i); [apply loop_like_update_layout | apply loop_like_ret]. }
  intros _. destruct (Nat.eqb i 0).
  - apply loop_like_bind; [apply loop_like_fig_to_html | intros s; apply loop_like_write].
  - apply loop_like_bind.
    { destruct (truthy_str sep); [apply loop_like_write | apply loop_like_ret]. }
    intros _. apply loop_like_bind; [apply loop_like_fig_to_html | intros s; apply loop_like_write].
Qed.

Lemma loop_like_write_figs `{Library} fname js sep heights figs :
  forall i, loop_like fname (write_figs fname js sep heights i figs).
Proof.
  induction figs as [|fig rest IH]; intros i; cbn [write_figs].
  - apply loop_like_ret.
  - apply loop_like_bind; [apply loop_like_loop_body | intros _; apply IH].
Qed.

Lemma combine_trace `{Library} figs fname js sep auto_open heights w :
  let run := combine_plotly_figs_to_html figs fname js sep auto_open heights w in
  read_fault run.2 = read_fault w /\ write_fault run.2 = write_fault w /\
  ((exists e, write_fault w !! fname = Some (AtOpen e) /\ run.1 = Raise e /\
      files run.2 = files w /\ events run.2 = events w ++ [EvOpen fname ModeWrite (Some e)])
   \/
   ((forall e, write_fault w !! fname <> Some (AtOpen e)) /\
    exists evs, Forall (fun ev => loop_event fname ev = true) evs /\
      files run.2 = <[fname := written evs]> (files w) /\
      events run.2 = events w ++ EvOpen fname ModeWrite None :: evs
                       ++ (if auto_open && is_ok run.1
                           then [EvBrowser (absolute_uri fname)] else []))).
Proof.
  cbv zeta. unfold combine_plotly_figs_to_html, bind.
  assert (Hopen : (exists e, write_fault w !! fname = Some (AtOpen e) /\
                     open_write fname w = (Raise e, log w (EvOpen fname ModeWrite (Some e))))
                  \/ ((forall e, write_fault w !! fname <> Some (AtOpen e)) /\
                      open_write fname w
                      = (Ok tt, log (set_files w (<[fname := EmptyString]> (files w)))
                                    (EvOpen fname ModeWrite None)))).
  { unfold open_write. destruct (write_fault w !! fname) as [[e|e]|];
      [left; eauto | right; split; [intros e'; discriminate | reflexivity]..]. }
  destruct Hopen as [(e & He & ->) | (Hne & ->)].
  - split; [reflexivity |]. split; [reflexivity |]. left. exists e. auto.
  - set (w0 := log (set_files w (<[fname := EmptyString]> (files w)))
                   (EvOpen fname ModeWrite None)).
    destruct (loop_like_write_figs fname js sep heights figs 0 w0)
      as (evs & Hev & Hall & Hr & Hw & Hfiles).
    specialize (Hfiles EmptyString (lookup_insert_eq _ _ _)).
    cbn [files w0 log set_files] in Hfiles. rewrite insert_insert_eq in Hfiles.
    change (EmptyString +:+ written evs) with (written evs) in Hfiles.
    destruct (write_figs fname js sep heights 0 figs w0) as [[[]|e] w1];
      cbn [fst snd] in *.
    + destruct auto_open; cbn [fst snd webbrowser_open ret log read_fault write_fault
                                 files events andb is_ok];
        (split; [exact Hr |]); (split; [exact Hw |]); right; (split; [exact Hne |]);
        exists evs; (split; [exact Hall |]); (split; [exact Hfiles |]);
        rewrite Hev; cbn; now rewrite <- ?app_assoc, ?app_nil_r.
    + split; [exact Hr |]. split; [exact Hw |]. right. split; [exact Hne |].
      exists evs. split; [exact Hall |]. split; [exact Hfiles |].
      rewrite Hev, andb_false_r, app_nil_r. cbn. now rewrite <- app_assoc.
Qed.



(** Whatever the outcome, the call opens the file exactly once, as its first
    call; everything between is a write to that file or a plotly call; the
    browser is opened exactly when [auto_open] is set and the call returns,
    as the last call and on the absolute URI of the file, never after a
    failure. *)
Theorem combine_calls_shape `{Library} (figs : list loc) (fname : string) (js : IncludeJs)
    (sep : option string) (auto_open : bool) (heights : option (list Z)) (w : World) :
  let run := combine_plotly_figs_to_html figs fname js sep auto_open heights w in
  exists (err : option Exn) (evs : list Event),
    events run.2
    = events w ++ EvOpen fname ModeWrite err :: evs
        ++ (if auto_open && is_ok run.1 then [EvBrowser (absolute_uri fname)] else []) /\
    Forall (fun ev => loop_event fname ev = true) evs /\
    (forall e, err = Some e -> evs = [] /\ run.1 = Raise e).
Proof.
  intros run.
  destruct (combine_trace figs fname js sep auto_open heights w)
    as (_ & _ & [(e & He & Hres & Hfiles & Hev) | (Hne & evs & Hall & Hfiles & Hev)]);
    fold run in Hres || fold run in Hev.
  - exists (Some e), []. fold run in Hev. rewrite Hev, Hres, andb_false_r.
    split; [reflexivity |]. split; [constructor |]. now intros e' [= <-].
  - exists None, evs. split; [exact Hev |]. split; [exact Hall |]. discriminate.
Qed.

(** ** When [combine_plotly_figs_to_html] returns *)

Lemma write_returns_iff path s w :
  (exists w', write path s w = (Ok tt, w')) <-> (forall e, write_fault w !! path <> Some (AtIO e)).
Proof.
  unfold write. destruct (write_fault w !! path) as [[e|e]|]; split;
    try (intros _; eauto; intros e'; discriminate).
  - intros [w' [=]].
  - intros Hno. now destruct (Hno e).
Qed.

Lemma serialize_returns_iff `{Library} fname js sep i fig w :
  (exists w',
     (if Nat.eqb i 0 then
        s <- fig_to_html fig true js ;;
        write fname s
      else
        (if truthy_str sep then write fname (default EmptyString sep) else ret tt) ;;;
        s <- fig_to_html fig false (JsBool false) ;;
        write fname s) w = (Ok tt, w')) <->
  (forall e, write_fault w !! fname <> Some (AtIO e)) /\
  exists f d, heap w !! fig = Some f /\ to_html f (Nat.eqb i 0) (js_arg js i) = Ok d.
Proof.
  unfold js_arg. split.
  - intros [w' Hrun]. split.
    + intros e He. revert Hrun.
      destruct (Nat.eqb i 0), (truthy_str sep);
        unfold bind, fig_to_html, write, ret; cbn [write_fault log set_files];
        destruct (heap w !! fig) as [f|]; try destruct (to_html f _ _);
        cbn [write_fault log set_files]; rewrite ?He; discriminate.
    + apply serialize_ok in Hrun as (f & d & _ & Hf & Hd & _). eauto.
  - intros (Hno & f & d & Hf & Hd).
    assert (Hw : forall s w1, write_fault w1 = write_fault w ->
              write fname s w1
              = (Ok tt, log (set_files w1 (<[fname := default EmptyString (files w1 !! fname) +:+ s]>
                                             (files w1))) (EvWrite fname s None))).
    { intros s w1 Hw1. unfold write. rewrite Hw1.
      destruct (write_fault w !! fname) as [[e|e]|]; [reflexivity | now destruct (Hno e) | reflexivity]. }
    destruct (Nat.eqb i 0).
    + unfold bind. rewrite (fig_to_html_returns _ _ _ _ _ _ Hf Hd), Hw by reflexivity. eauto.
    + destruct (truthy_str sep); unfold bind.
      * rewrite Hw by reflexivity.
        rewrite (fig_to_html_returns _ _ _ _ f d) by assumption.
        rewrite Hw by reflexivity. eauto.
      * cbn [ret]. rewrite (fig_to_html_returns _ _ _ _ _ _ Hf Hd), Hw by reflexivity. eauto.
Qed.

Lemma loop_body_returns_iff `{Library} fname js sep heights i fig w :
  (exists w', loop_body fname js sep heights i fig w = (Ok tt, w')) <->
  (forall e, write_fault w !! fname <> Some (AtIO e)) /\
  (forall ht, default [] heights !! i = Some ht -> validate_height ht = None) /\
  exists f0 d, heap w !! fig = Some f0 /\
    to_html (match default [] heights !! i with
             | Some h => with_height f0 h
             | None => f0
             end) (Nat.eqb i 0) (js_arg js i) = Ok d.
Proof.
  unfold loop_body. rewrite height_step. unfold bind at 1.
  destruct (default [] heights !! i) as [h|].
  - unfold update_layout. destruct (heap w !! fig) as [f0|] eqn:Hf0.
    + destruct (validate_height h) as [e|] eqn:Hval.
      * split; [intros [w' [=]] | intros (_ & Hv & _); specialize (Hv h eq_refl); congruence].
      * rewrite serialize_returns_iff. cbn [write_fault heap log set_heap].
        rewrite lookup_insert_eq. split.
        -- intros (Hno & f & d & [= <-] & Hd). split; [exact Hno |].
           split; [now intros ht [= <-] | eauto].
        -- intros (Hno & _ & f & d & [= <-] & Hd). eauto.
    + split; [intros [w' [=]] | intros (_ & _ & f & d & [=] & _)].
  - cbn [ret]. rewrite serialize_returns_iff. split.
    + intros (Hno & f & d & Hf & Hd). split; [exact Hno |]. split; [discriminate | eauto].
    + intros (Hno & _ & f & d & Hf & Hd). eauto.
Qed.

Lemma figure_at_0 (h : gmap loc Figure) fig rest (hs : list Z) i f0 :
  h !! fig = Some f0 ->
  figure_at h (fig :: rest) (drop i hs) 0 fig
  = Some (match hs !! i with Some ht => with_height f0 ht | None => f0 end).
Proof.
  intros Hf0. unfold figure_at. destruct (hs !! i) as [ht|] eqn:Hi.
  - rewrite (drop_S _ _ _ Hi). cbn. rewrite take_0. cbn.
    now rewrite lookup_alter_eq, Hf0.
  - apply lookup_ge_None in Hi. rewrite drop_ge by lia. exact Hf0.
Qed.

Lemma figure_at_S (h : gmap loc Figure) fig rest (hs : list Z) i f0 j l :
  h !! fig = Some f0 ->
  figure_at h (fig :: rest) (drop i hs) (S j) l
  = figure_at (match hs !! i with
               | Some ht => <[fig := with_height f0 ht]> h
               | None => h
               end) rest (drop (S i) hs) j l.
Proof.
  intros Hf0. unfold figure_at. destruct (hs !! i) as [ht|] eqn:Hi.
  - rewrite (drop_S _ _ _ Hi). cbn [zip zip_with take].
    rewrite <- (alter_with_height _ _ _ _ Hf0). reflexivity.
  - apply lookup_ge_None in Hi. rewrite !drop_ge by lia.
    rewrite !zip_nil_r. reflexivity.
Qed.

Lemma write_figs_returns_iff `{Library} fname js sep heights figs : forall i w,
  (exists w', write_figs fname js sep heights i figs w = (Ok tt, w')) <->
  (figs <> [] -> forall e, write_fault w !! fname <> Some (AtIO e)) /\
  forall j fig, figs !! j = Some fig ->
    (forall ht, default [] heights !! (i + j) = Some ht -> validate_height ht = None) /\
    exists f d, figure_at (heap w) figs (drop i (default [] heights)) j fig = Some f /\
      to_html f (Nat.eqb (i + j) 0) (js_arg js (i + j)) = Ok d.
Proof.
  induction figs as [|fig rest IH]; intros i w; cbn [write_figs].
  - split; [|intros _; now eexists]. intros _. split; [congruence |]. intros j fig [=].
  - split.
    + intros [w' Hrun]. apply bind_ok in Hrun as ([] & w1 & Hbody & Hrest).
      destruct (proj1 (loop_body_returns_iff fname js sep heights i fig w) (ex_intro _ _ Hbody))
        as (Hno & Hv & f0 & d & Hf0 & Hd).
      apply loop_body_ok in Hbody as (f0' & _ & _ & Hf0' & _ & Hheap & _ & _ & _ & _ & Hwf).
      rewrite Hf0 in Hf0'. injection Hf0' as <-.
      destruct (proj1 (IH (S i) w1) (ex_intro _ _ Hrest)) as [_ Hits].
      split; [intros _; exact Hno |].
      intros [|j] l Hl.
      * injection Hl as <-. rewrite Nat.add_0_r. split; [exact Hv |].
        rewrite (figure_at_0 _ _ _ _ _ _ Hf0). eauto.
      * cbn in Hl. rewrite Nat.add_succ_r. rewrite (figure_at_S _ _ _ _ _ _ _ _ Hf0).
        rewrite <- Hheap. exact (Hits j l Hl).
    + intros [Hno Hits].
      destruct (Hits 0 fig eq_refl) as (Hv & f & d & Hf & Hd). rewrite Nat.add_0_r in Hv, Hd.
      assert (Hf0 : exists f0, heap w !! fig = Some f0).
      { destruct (heap w !! fig) as [f0|] eqn:Hf0; [eauto |]. exfalso.
        unfold figure_at in Hf. cbn in Hf.
        destruct (drop i (default [] heights)) as [|ht tl]; cbn in Hf.
        - congruence.
        - rewrite take_0 in Hf. cbn in Hf. rewrite lookup_alter_eq, Hf0 in Hf. discriminate. }
      destruct Hf0 as [f0 Hf0]. rewrite (figure_at_0 _ _ _ _ _ _ Hf0) in Hf. injection Hf as <-.
      destruct (proj2 (loop_body_returns_iff fname js sep heights i fig w)) as [w1 Hbody].
      { split; [apply Hno; discriminate |]. split; [exact Hv | eauto]. }
      unfold bind. rewrite Hbody.
      apply loop_body_ok in Hbody as (f0' & _ & _ & Hf0' & _ & Hheap & _ & _ & _ & _ & Hwf).
      rewrite Hf0 in Hf0'. injection Hf0' as <-.
      apply IH. split; [intros _; rewrite Hwf; apply Hno; discriminate |].
      intros j l Hl. specialize (Hits (S j) l Hl).
      rewrite Nat.add_succ_r, (figure_at_S _ _ _ _ _ _ _ _ Hf0), <- Hheap in Hits. exact Hits.
Qed.

Lemma figure_at_height (h : gmap loc Figure) figs (hs : list Z) j fig ht g :
  figs !! j = Some fig -> hs !! j = Some ht -> h !! fig = Some g ->
  figure_at h figs hs j fig = Some (with_height g ht).
Proof.
  intros Hj Hh Hg. unfold figure_at. rewrite zip_with_take.
  apply (set_heights_last _ _ _ j); [| |intros j' Hlt _|exact Hg].
  - rewrite lookup_take_lt by lia. exact Hj.
  - rewrite lookup_take_lt by lia. exact Hh.
  - apply lookup_take_ge. lia.
Qed.

Lemma figure_at_beyond (h : gmap loc Figure) figs (hs : list Z) j fig :
  hs !! j = None -> figure_at h figs hs j fig = set_heights h (zip figs hs) !! fig.
Proof.
  intros Hh. unfold figure_at. apply lookup_ge_None in Hh.
  rewrite take_ge; [reflexivity |]. rewrite length_zip_with. lia.
Qed.

Lemma open_write_returns_iff path w :
  (exists w', open_write path w = (Ok tt, w')) <->
  (forall e, write_fault w !! path <> Some (AtOpen e)).
Proof.
  unfold open_write. destruct (write_fault w !! path) as [[e|e]|]; split;
    try (intros _; eauto; intros e'; discriminate).
  - intros [w' [=]].
  - intros Hno. now destruct (Hno e).
Qed.

Lemma combine_returns_only `{Library} figs fname js sep auto_open heights w w' :
  combine_plotly_figs_to_html figs fname js sep auto_open heights w = (Ok tt, w') ->
  (forall e, write_fault w !! fname <> Some (AtOpen e)) /\
  (figs <> [] -> write_fault w !! fname = None) /\
  (forall j fig, figs !! j = Some fig ->
     iteration_passes js (heap w) figs (default [] heights) j fig).
Proof.
  unfold combine_plotly_figs_to_html. intros Hrun.
  apply bind_ok in Hrun as ([] & w0 & Hopen & Hrun).
  pose proof (proj1 (open_write_returns_iff fname w) (ex_intro _ _ Hopen)) as Hno.
  apply open_write_ok in Hopen as ->.
  apply bind_ok in Hrun as ([] & w1 & Hfigs & _).
  destruct (proj1 (write_figs_returns_iff fname js sep heights figs 0 _) (ex_intro _ _ Hfigs))
    as [Hio Hits].
  cbn [write_fault heap log set_files] in Hio, Hits.
  split; [exact Hno |]. split; [|exact Hits].
  intros Hne. specialize (Hio Hne).
  destruct (write_fault w !! fname) as [[e|e]|];
    [now destruct (Hno e) | now destruct (Hio e) | reflexivity].
Qed.

Lemma combine_returns_when `{Library} figs fname js sep auto_open heights w :
  (forall e, write_fault w !! fname <> Some (AtOpen e)) ->
  (figs <> [] -> write_fault w !! fname = None) ->
  (forall j fig, figs !! j = Some fig ->
     iteration_passes js (heap w) figs (default [] heights) j fig) ->
  exists w', combine_plotly_figs_to_html figs fname js sep auto_open heights w = (Ok tt, w').
Proof.
  intros Hno Hio Hits. unfold combine_plotly_figs_to_html.
  destruct (proj2 (open_write_returns_iff fname w) Hno) as [w0 Hopen].
  unfold bind at 1. rewrite Hopen. apply open_write_ok in Hopen as ->.
  destruct (proj2 (write_figs_returns_iff fname js sep heights figs 0
                     (log (set_files w (<[fname := EmptyString]> (files w)))
                          (EvOpen fname ModeWrite None)))) as [w1 Hfigs].
  { cbn [write_fault heap log set_files]. split; [|exact Hits].
    intros Hne e. rewrite (Hio Hne). discriminate. }
  unfold bind. rewrite Hfigs. destruct auto_open; now eexists.
Qed.

(** [combine_plotly_figs_to_html] returns exactly when the file can be
    opened for writing, writing to it does not fail if there is a figure to
    write, and at every index [j] of the list the object is a figure, plotly
    accepts [heights[j]] if there is one, and [to_html] returns on the
    figure as it stands with the heights of the indices up to [j]
    applied. *)
Theorem combine_returns_exactly `{Library} (figs : list loc) (fname : string) (js : IncludeJs)
    (sep : option string) (auto_open : bool) (heights : option (list Z)) (w : World) :
  (exists w', combine_plotly_figs_to_html figs fname js sep auto_open heights w = (Ok tt, w')) <->
  (forall e, write_fault w !! fname <> Some (AtOpen e)) /\
  (figs <> [] -> write_fault w !! fname = None) /\
  (forall j fig, figs !! j = Some fig ->
     iteration_passes js (heap w) figs (default [] heights) j fig).
Proof.
  split.
  - intros [w' Hrun]. exact (combine_returns_only _ _ _ _ _ _ _ _ Hrun).
  - intros (Hno & Hio & Hits). now apply combine_returns_when.
Qed.

(** ** The last cell of the notebook *)

Lemma hr_text (d1 d2 d3 : string) :
  text_from (Some "<hr>") 0 [d1; d2; d3] = d1 +:+ "<hr>" +:+ d2 +:+ "<hr>" +:+ d3.
Proof.
  cbn [text_from piece Nat.eqb default]. now rewrite !app_assoc_s, app_nil_r_s.
Qed.

Lemma combine_cell `{Library} (fig1 fig2 fig3 : loc) (w : World) (g1 g2 g3 : Figure)
    (d1 d2 d3 : string) :
  write_fault w !! "combined.html" = None ->
  heap w !! fig1 = Some g1 -> heap w !! fig2 = Some g2 -> heap w !! fig3 = Some g3 ->
  validate_height 400 = None -> validate_height 300 = None -> validate_height 500 = None ->
  to_html (with_height g1 400) true JsCdn = Ok d1 ->
  to_html (with_height g2 300) false (JsBool false) = Ok d2 ->
  to_html (with_height g3 500) false (JsBool false) = Ok d3 ->
  exists w1,
    combine_plotly_figs_to_html [fig1; fig2; fig3] "combined.html" JsCdn (Some "<hr>") false
      (Some [400; 300; 500]%Z) w = (Ok tt, w1) /\
    files w1 = <["combined.html" := d1 +:+ "<hr>" +:+ d2 +:+ "<hr>" +:+ d3]> (files w) /\
    heap w1 = set_heights (heap w) [(fig1, 400%Z); (fig2, 300%Z); (fig3, 500%Z)] /\
    read_fault w1 = read_fault w /\ write_fault w1 = write_fault w.
Proof.
  intros Hwf Hg1 Hg2 Hg3 Hv1 Hv2 Hv3 Hd1 Hd2 Hd3.
  destruct (combine_returns_when [fig1; fig2; fig3] "combined.html" JsCdn (Some "<hr>") false
              (Some [400; 300; 500]%Z) w) as [w1 Hrun].
  { intros e. rewrite Hwf. discriminate. }
  { intros _. exact Hwf. }
  { intros [|[|[|j]]] fig [= <-]; (split; [intros ht [= <-]; assumption |]);
      eexists _, _; (split; [apply figure_at_height; [reflexivity | reflexivity | eassumption] |]);
      eassumption. }
  exists w1. split; [exact Hrun |].
  apply combine_ok in Hrun as (ser & evs & Hlen & _ & _ & Hheap & Hst & Hfiles & Hrf & Hwf1).
  destruct ser as [|[f1 e1] [|[f2 e2] [|[f3 e3] [|? ?]]]]; try discriminate.
  destruct (Hst 0 fig1 f1 e1 eq_refl eq_refl) as (He1 & f0 & Hf0 & ->).
  rewrite Hg1 in Hf0. injection Hf0 as <-.
  destruct (Hst 1 fig2 f2 e2 eq_refl eq_refl) as (He2 & f0 & Hf0 & ->).
  rewrite Hg2 in Hf0. injection Hf0 as <-.
  destruct (Hst 2 fig3 f3 e3 eq_refl eq_refl) as (He3 & f0 & Hf0 & ->).
  rewrite Hg3 in Hf0. injection Hf0 as <-.
  cbn [Nat.eqb js_arg] in He1, He2, He3.
  rewrite Hd1 in He1. rewrite Hd2 in He2. rewrite Hd3 in He3.
  injection He1 as <-. injection He2 as <-. injection He3 as <-.
  split; [|split; [exact Hheap | split; assumption]].
  rewrite Hfiles. cbn [fmap list_fmap snd]. now rewrite hr_text.
Qed.

Lemma convert_logo_frame path w :
  files (convert_logo path w).2 = files w /\ heap (convert_logo path w).2 = heap w /\
  read_fault (convert_logo path w).2 = read_fault w /\
  write_fault (convert_logo path w).2 = write_fault w.
Proof.
  unfold convert_logo, read_bytes, bind, read_file.
  destruct (read_fault w !! path) as [[e|e]|], (files w !! path) as [c|]; cbn;
    try (repeat split; reflexivity).
  rewrite decode_b64encode. cbn. repeat split; reflexivity.
Qed.

(** The last cell of the notebook, when nothing fails: the file
    [combined.html] then holds the header page built from the logo as a
    data URI and the title, followed by the first figure as a complete
    document and the two others as fragments, each after an [<hr>]; every
    figure is serialized with the height the cell gives it and is left with
    that height (the last one, if the same object is passed twice); no
    other file changes. *)
Theorem notebook_cell_writes `{Library} (fig1 fig2 fig3 : loc) (w : World) (g1 g2 g3 : Figure)
    (d1 d2 d3 c : string) :
  write_fault w !! "combined.html" = None ->
  read_fault w !! "combined.html" = None ->
  read_fault w !! "yhat.png" = None ->
  files w !! "yhat.png" = Some c ->
  heap w !! fig1 = Some g1 -> heap w !! fig2 = Some g2 -> heap w !! fig3 = Some g3 ->
  validate_height 400 = None -> validate_height 300 = None -> validate_height 500 = None ->
  to_html (with_height g1 400) true JsCdn = Ok d1 ->
  to_html (with_height g2 300) false (JsBool false) = Ok d2 ->
  to_html (with_height g3 500) false (JsBool false) = Ok d3 ->
  exists w',
    notebook_cell fig1 fig2 fig3 w = (Ok tt, w') /\
    files w'
    = <["combined.html" :=
          html_content ("data:image/png;base64,"
                          +:+ string_of_list_byte (b64encode (list_byte_of_string c)))
                       "Combined Plotly Figures"
            +:+ d1 +:+ "<hr>" +:+ d2 +:+ "<hr>" +:+ d3]> (files w) /\
    heap w' = set_heights (heap w) [(fig1, 400%Z); (fig2, 300%Z); (fig3, 500%Z)] /\
    read_fault w' = read_fault w /\ write_fault w' = write_fault w.
Proof.
  intros Hwf Hrf Hlf Hc Hg1 Hg2 Hg3 Hv1 Hv2 Hv3 Hd1 Hd2 Hd3.
  destruct (combine_cell fig1 fig2 fig3 w g1 g2 g3 d1 d2 d3)
    as (w1 & Hrun & Hfiles1 & Hheap1 & Hrf1 & Hwf1); try assumption.
  unfold notebook_cell, bind. rewrite Hrun.
  rewrite (convert_logo_readable "yhat.png" w1 c);
    [|now rewrite Hrf1 | now rewrite Hfiles1, lookup_insert_ne].
  set (logo := "data:image/png;base64," +:+ string_of_list_byte (b64encode (list_byte_of_string c))).
  destruct (add_html_header_accessible "combined.html" logo "Combined Plotly Figures"
              (log (log w1 (EvOpen "yhat.png" ModeReadBinary None)) (EvRead "yhat.png" (Ok c)))
              (d1 +:+ "<hr>" +:+ d2 +:+ "<hr>" +:+ d3))
    as (w' & Hhdr & Hfiles' & Hrf' & Hwf' & Hheap').
  { cbn [read_fault log]. now rewrite Hrf1. }
  { cbn [write_fault log]. now rewrite Hwf1. }
  { cbn [files log]. rewrite Hfiles1. apply lookup_insert_eq. }
  exists w'. split; [exact Hhdr |].
  cbn [files heap read_fault write_fault log] in Hfiles', Hrf', Hwf', Hheap'.
  split; [now rewrite Hfiles', Hfiles1, insert_insert_eq |].
  split; [congruence |]. split; congruence.
Qed.

Lemma notebook_cell_writes_witness :
  exists w',
    notebook_cell 1%positive 2%positive 3%positive demo_world = (Ok tt, w') /\
    files w'
    = <["combined.html" :=
          html_content ("data:image/png;base64,"
                          +:+ string_of_list_byte (b64encode (list_byte_of_string "foobar")))
                       "Combined Plotly Figures"
            +:+ "<html><script><div fig1:mid></html>" +:+ "<hr>" +:+ "<div fig2:mid>"
            +:+ "<hr>" +:+ "<div fig3:mid>"]> (files demo_world) /\
    heap w' = set_heights (heap demo_world)
                [(1%positive, 400%Z); (2%positive, 300%Z); (3%positive, 500%Z)] /\
    read_fault w' = read_fault demo_world /\ write_fault w' = write_fault demo_world.
Proof.
  apply (@notebook_cell_writes demo_library 1%positive 2%positive 3%positive demo_world
           (mkFigure "fig1" None) (mkFigure "fig2" None) (mkFigure "fig3" (Some 450%Z)));
    reflexivity.
Defined.

Lemma convert_logo_same path w1 w :
  files w1 !! path = files w !! path -> read_fault w1 !! path = read_fault w !! path ->
  (convert_logo path w1).1 = (convert_logo path w).1.
Proof.
  intros Hf Hr. unfold convert_logo, read_bytes, bind, read_file. rewrite Hf, Hr.
  destruct (read_fault w !! path) as [[e|e]|], (files w !! path) as [c|]; try reflexivity.
  cbn [ret]. rewrite decode_b64encode. reflexivity.
Qed.

(** The last cell of the notebook, when the logo cannot be read: the cell
    raises the error of the read, but only after
    [combine_plotly_figs_to_html] has returned.  The file [combined.html] is
    left holding the three figures without the header, and the figures keep
    the heights the cell gave them. *)
Theorem notebook_cell_logo_unreadable `{Library} (fig1 fig2 fig3 : loc) (w : World)
    (g1 g2 g3 : Figure) (d1 d2 d3 : string) (e : Exn) :
  write_fault w !! "combined.html" = None ->
  heap w !! fig1 = Some g1 -> heap w !! fig2 = Some g2 -> heap w !! fig3 = Some g3 ->
  validate_height 400 = None -> validate_height 300 = None -> validate_height 500 = None ->
  to_html (with_height g1 400) true JsCdn = Ok d1 ->
  to_html (with_height g2 300) false (JsBool false) = Ok d2 ->
  to_html (with_height g3 500) false (JsBool false) = Ok d3 ->
  (convert_logo "yhat.png" w).1 = Raise e ->
  exists w',
    notebook_cell fig1 fig2 fig3 w = (Raise e, w') /\
    files w' = <["combined.html" := d1 +:+ "<hr>" +:+ d2 +:+ "<hr>" +:+ d3]> (files w) /\
    heap w' = set_heights (heap w) [(fig1, 400%Z); (fig2, 300%Z); (fig3, 500%Z)].
Proof.
  intros Hwf Hg1 Hg2 Hg3 Hv1 Hv2 Hv3 Hd1 Hd2 Hd3 Hlogo.
  destruct (combine_cell fig1 fig2 fig3 w g1 g2 g3 d1 d2 d3)
    as (w1 & Hrun & Hfiles1 & Hheap1 & Hrf1 & Hwf1); try assumption.
  unfold notebook_cell, bind. rewrite Hrun.
  pose proof (convert_logo_same "yhat.png" w1 w) as Hsame.
  rewrite Hlogo in Hsame.
  destruct (convert_logo_frame "yhat.png" w1) as (Hf & Hh & _).
  destruct (convert_logo "yhat.png" w1) as [r w2]. cbn [fst snd] in *.
  rewrite Hsame; [| now rewrite Hfiles1, lookup_insert_ne | now rewrite Hrf1].
  exists w2. split; [reflexivity |]. split; congruence.
Qed.

Lemma notebook_cell_logo_unreadable_witness :
  let w := set_files demo_world {[ "old.html" := "<p>old</p>" ]} in
  exists w',
    notebook_cell 1%positive 2%positive 3%positive w
    = (Raise (FileNotFoundError "yhat.png"), w') /\
    files w' = <["combined.html" :=
                   "<html><script><div fig1:mid></html>" +:+ "<hr>" +:+ "<div fig2:mid>"
                     +:+ "<hr>" +:+ "<div fig3:mid>"]> (files w) /\
    heap w' = set_heights (heap w)
                [(1%positive, 400%Z); (2%positive, 300%Z); (3%positive, 500%Z)].
Proof.
  intros w.
  apply (@notebook_cell_logo_unreadable demo_library 1%positive 2%positive 3%positive w
           (mkFigure "fig1" None) (mkFigure "fig2" None) (mkFigure "fig3" (Some 450%Z)));
    reflexivity.
Defined.

(** ** What [combine_plotly_figs_to_html] depends on *)

(** What the file held before the call, and whether it existed, makes no
    difference: unless [open] fails, the call ends in the very same world
    from any two worlds that differ in that file only. *)
Theorem combine_overwrites `{Library} (figs : list loc) (fname : string) (js : IncludeJs)
    (sep : option string) (auto_open : bool) (heights : option (list Z)) (w : World)
    (fs : gmap string string) :
  (forall e, write_fault w !! fname <> Some (AtOpen e)) ->
  (forall p, p <> fname -> fs !! p = files w !! p) ->
  combine_plotly_figs_to_html figs fname js sep auto_open heights (set_files w fs)
  = combine_plotly_figs_to_html figs fname js sep auto_open heights w.
Proof.
  intros Hno Hfs. unfold combine_plotly_figs_to_html. unfold bind at 1 3.
  unfold open_write. cbn [write_fault set_files files].
  assert (Heq : <[fname := EmptyString]> fs = <[fname := EmptyString]> (files w)).
  { apply map_eq. intros p. destruct (decide (fname = p)) as [->|Hne].
    - now rewrite !lookup_insert_eq.
    - rewrite !lookup_insert_ne by assumption. apply Hfs. congruence. }
  destruct (write_fault w !! fname) as [[e|e]|]; [now destruct (Hno e) | |];
    unfold set_files; cbn [files read_fault write_fault heap events]; now rewrite Heq.
Qed.

Lemma combine_overwrites_witness :
  combine_plotly_figs_to_html [1; 2]%positive "old.html" JsCdn None true None
    (set_files demo_world (delete "old.html" (files demo_world)))
  = combine_plotly_figs_to_html [1; 2]%positive "old.html" JsCdn None true None demo_world.
Proof.
  apply (@combine_overwrites demo_library).
  - intros e. vm_compute. discriminate.
  - intros p Hp. now apply lookup_delete_ne.
Defined.

Lemma truthy_default (sep sep' : option string) :
  default EmptyString sep = default EmptyString sep' -> truthy_str sep = truthy_str sep'.
Proof. destruct sep as [[|a s]|], sep' as [[|a' s']|]; cbn; congruence. Qed.

Lemma loop_body_args `{Library} fname js js' sep sep' hs hs' i fig :
  (i = 0 -> js = js') ->
  (i <> 0 -> default EmptyString sep = default EmptyString sep') ->
  default [] hs !! i = default [] hs' !! i ->
  loop_body fname js sep hs i fig = loop_body fname js' sep' hs' i fig.
Proof.
  intros Hjs Hsep Hh. unfold loop_body. rewrite !height_step, Hh.
  destruct i as [|i]; cbn [Nat.eqb].
  - now rewrite (Hjs eq_refl).
  - assert (Hs : default EmptyString sep = default EmptyString sep') by now apply Hsep.
    now rewrite (truthy_default _ _ Hs), Hs.
Qed.

Lemma write_figs_args `{Library} fname js js' sep sep' hs hs' figs : forall i,
  (i = 0 -> figs = [] \/ js = js') ->
  (i = 0 /\ length figs <= 1 \/ default EmptyString sep = default EmptyString sep') ->
  (forall j, j < length figs -> default [] hs !! (i + j) = default [] hs' !! (i + j)) ->
  write_figs fname js sep hs i figs = write_figs fname js' sep' hs' i figs.
Proof.
  induction figs as [|fig rest IH]; intros i Hjs Hsep Hh; [reflexivity |].
  cbn [write_figs]. rewrite (loop_body_args fname js js' sep sep' hs hs' i fig).
  - destruct rest as [|fig' rest']; [reflexivity |].
    rewrite (IH (S i)); [reflexivity | discriminate | |].
    + right. destruct Hsep as [[_ Hlen]|Hs]; [cbn in Hlen; lia | exact Hs].
    + intros j Hj. rewrite Nat.add_succ_comm. apply Hh. cbn in *. lia.
  - intros Hi. destruct (Hjs Hi) as [Hnil|Heq]; [discriminate | exact Heq].
  - intros Hi. destruct Hsep as [[Hi0 _]|Hs]; [contradiction | exact Hs].
  - rewrite <- (Nat.add_0_r i). apply Hh. cbn. lia.
Qed.

(** Which arguments the call looks at: [include_plotlyjs] only if there is
    a figure, the separator only if there are two, and of the heights only
    the first [N] for [N] figures.  A separator [None] is the empty
    separator, and heights [None] are the empty list. *)
Theorem combine_arguments `{Library} (figs : list loc) (fname : string) (js js' : IncludeJs)
    (sep sep' : option string) (auto_open : bool) (hs hs' : option (list Z)) :
  figs = [] \/ js = js' ->
  length figs <= 1 \/ default EmptyString sep = default EmptyString sep' ->
  take (length figs) (default [] hs) = take (length figs) (default [] hs') ->
  combine_plotly_figs_to_html figs fname js sep auto_open hs
  = combine_plotly_figs_to_html figs fname js' sep' auto_open hs'.
Proof.
  intros Hjs Hsep Hh. unfold combine_plotly_figs_to_html.
  rewrite (write_figs_args fname js js' sep sep' hs hs' figs 0); [reflexivity | | |].
  - intros _. exact Hjs.
  - destruct Hsep as [Hlen|Hs]; [left; now split | now right].
  - intros j Hj. cbn [Nat.add].
    rewrite <- (lookup_take_lt (default [] hs) (length figs) j) by exact Hj.
    rewrite <- (lookup_take_lt (default [] hs') (length figs) j) by exact Hj.
    now rewrite Hh.
Qed.

Lemma combine_arguments_witness :
  combine_plotly_figs_to_html [1; 2]%positive "combined.html" JsCdn None false
    (Some [400; 200; 999]%Z)
  = combine_plotly_figs_to_html [1; 2]%positive "combined.html" JsCdn (Some EmptyString) false
      (Some [400; 200]%Z).
Proof.
  apply (@combine_arguments demo_library); [right | right |]; reflexivity.
Defined.

(** ** The figures the loop serializes, and running the call again *)

Lemma set_heights_cons (h : gmap loc Figure) l ht ps :
  set_heights h ((l, ht) :: ps) = set_heights (alter (fun f => with_height f ht) l h) ps.
Proof. reflexivity. Qed.

Lemma set_heights_lookup (ps : list (loc * Z)) : forall (h : gmap loc Figure) (l : loc),
  set_heights h ps !! l
  = (fun f => from_option (with_height f) f (last_height ps l)) <$> h !! l.
Proof.
  induction ps as [|[l' ht] ps IH]; intros h l.
  - cbn. now destruct (h !! l).
  - rewrite set_heights_cons, IH. cbn [last_height].
    destruct (decide (l' = l)) as [->|Hne].
    + rewrite lookup_alter_eq. destruct (h !! l) as [f|]; [|reflexivity].
      cbn. now destruct (last_height ps l).
    + rewrite lookup_alter_ne by assumption. destruct (h !! l) as [f|]; [|reflexivity].
      cbn. now destruct (last_height ps l).
Qed.




Lemma serialize_alike `{Library} fname js sep i fig w1 w2 :
  heap w1 !! fig = heap w2 !! fig ->
  files w1 !! fname = files w2 !! fname ->
  write_fault w1 !! fname = write_fault w2 !! fname ->
  let m := if Nat.eqb i 0 then
             s <- fig_to_html fig true js ;;
             write fname s
           else
             (if truthy_str sep then write fname (default EmptyString sep) else ret tt) ;;;
             s <- fig_to_html fig false (JsBool false) ;;
             write fname s in
  (m w1).1 = (m w2).1 /\
  (exists evs, events (m w1).2 = events w1 ++ evs /\ events (m w2).2 = events w2 ++ evs) /\
  files (m w1).2 !! fname = files (m w2).2 !! fname.
Proof.
  intros Hh Hf Hw m. subst m.
  destruct (write_fault w2 !! fname) as [[e|e]|] eqn:Hw2, (heap w2 !! fig) as [f|] eqn:Hh2;
    (destruct (Nat.eqb i 0); [|destruct (truthy_str sep)]);
    unfold bind, fig_to_html, write, ret;
    repeat (progress (cbn [write_fault heap files events log set_files set_heap fst snd];
                      rewrite ?Hh, ?Hw, ?Hw2, ?Hh2, ?lookup_insert_eq, ?Hf)
            || match goal with
               | |- context [match to_html ?f ?b ?j with _ => _ end] =>
                   destruct (to_html f b j)
               end);
    (split; [reflexivity |]); (split; [|reflexivity]);
    eexists; rewrite <- ?app_assoc; split; reflexivity.
Qed.

Lemma bind_run {A B} (m : M A) (k : A -> M B) (w : World) :
  bind m k w = match (m w).1 with Ok a => k a (m w).2 | Raise e => (Raise e, (m w).2) end.
Proof. unfold bind. now destruct (m w) as [[a|e] w']. Qed.

Lemma figure_at_0_lookup (h : gmap loc Figure) fig rest (hs : list Z) i :
  figure_at h (fig :: rest) (drop i hs) 0 fig
  = (fun f0 => match hs !! i with Some ht => with_height f0 ht | None => f0 end) <$> h !! fig.
Proof.
  destruct (h !! fig) as [f0|] eqn:Hf0.
  - now rewrite (figure_at_0 _ _ _ _ _ _ Hf0).
  - unfold figure_at. now rewrite set_heights_lookup, Hf0.
Qed.

Lemma loop_body_alike `{Library} fname js sep heights i fig rest w1 w2 r1 w1' r2 w2' :
  figure_at (heap w1) (fig :: rest) (drop i (default [] heights)) 0 fig
  = figure_at (heap w2) (fig :: rest) (drop i (default [] heights)) 0 fig ->
  files w1 !! fname = files w2 !! fname ->
  write_fault w1 !! fname = write_fault w2 !! fname ->
  loop_body fname js sep heights i fig w1 = (r1, w1') ->
  loop_body fname js sep heights i fig w2 = (r2, w2') ->
  r1 = r2 /\
  (exists evs, events w1' = events w1 ++ evs /\ events w2' = events w2 ++ evs) /\
  files w1' !! fname = files w2' !! fname /\
  exists n,
    heap w1' = set_heights (heap w1) (take n (zip (fig :: rest) (drop i (default [] heights)))) /\
    heap w2' = set_heights (heap w2) (take n (zip (fig :: rest) (drop i (default [] heights)))).
Proof.
  rewrite !figure_at_0_lookup. intros Hfig Hf Hw.
  unfold loop_body. rewrite height_step, !bind_run.
  destruct (default [] heights !! i) as [ht|] eqn:Hi.
  - unfold update_layout.
    destruct (heap w1 !! fig) as [f1|] eqn:Hf1, (heap w2 !! fig) as [f2|] eqn:Hf2;
      cbn [fmap option_fmap option_map] in Hfig; try discriminate.
    + injection Hfig as Hfig. destruct (validate_height ht) as [e|]; cbn [fst snd].
      * intros [= <- <-] [= <- <-]. split; [reflexivity |].
        split; [eexists; split; reflexivity |]. split; [exact Hf |]. now exists 0.
      * intros H1 H2.
        set (v1 := log (set_heap w1 (<[fig := with_height f1 ht]> (heap w1)))
                       (EvUpdateLayout fig ht None)) in H1.
        set (v2 := log (set_heap w2 (<[fig := with_height f2 ht]> (heap w2)))
                       (EvUpdateLayout fig ht None)) in H2.
        pose proof (serialize_alike fname js sep i fig v1 v2) as Hs. cbv zeta in Hs.
        pose proof (serialize_heap fname js sep i fig v1) as Hh1.
        pose proof (serialize_heap fname js sep i fig v2) as Hh2.
        rewrite H1 in Hs, Hh1. rewrite H2 in Hs, Hh2. cbn [fst snd] in Hs, Hh1, Hh2.
        destruct Hs as (Hr & (evs & He1 & He2) & Hfl).
        { cbn. rewrite !lookup_insert_eq. unfold with_height. now rewrite Hfig. }
        { exact Hf. }
        { exact Hw. }
        split; [exact Hr |].
        split; [exists (EvUpdateLayout fig ht None :: evs); rewrite He1, He2; cbn;
                now rewrite <- !app_assoc |].
        split; [exact Hfl |]. exists 1.
        rewrite Hh1, Hh2, (drop_S _ _ _ Hi). cbn.
        now rewrite (alter_with_height _ _ _ _ Hf1), (alter_with_height _ _ _ _ Hf2).
    + intros [= <- <-] [= <- <-]. split; [reflexivity |].
      split; [eexists; split; reflexivity |]. split; [exact Hf |]. now exists 0.
  - cbn [ret fst snd]. intros H1 H2.
    pose proof (serialize_alike fname js sep i fig w1 w2) as Hs. cbv zeta in Hs.
    pose proof (serialize_heap fname js sep i fig w1) as Hh1.
    pose proof (serialize_heap fname js sep i fig w2) as Hh2.
    rewrite H1 in Hs, Hh1. rewrite H2 in Hs, Hh2. cbn [fst snd] in Hs, Hh1, Hh2.
    destruct Hs as (Hr & Hev & Hfl).
    { destruct (heap w1 !! fig), (heap w2 !! fig); cbn in Hfig; congruence. }
    { exact Hf. }
    { exact Hw. }
    split; [exact Hr |]. split; [exact Hev |]. split; [exact Hfl |]. now exists 0.
Qed.

Lemma write_figs_alike `{Library} fname js sep heights figs : forall i w1 w2 r1 w1' r2 w2',
  same_figures (heap w1) (heap w2) figs (drop i (default [] heights)) ->
  files w1 !! fname = files w2 !! fname ->
  write_fault w1 !! fname = write_fault w2 !! fname ->
  write_figs fname js sep heights i figs w1 = (r1, w1') ->
  write_figs fname js sep heights i figs w2 = (r2, w2') ->
  r1 = r2 /\
  (exists evs, events w1' = events w1 ++ evs /\ events w2' = events w2 ++ evs) /\
  files w1' !! fname = files w2' !! fname /\
  exists n,
    heap w1' = set_heights (heap w1) (take n (zip figs (drop i (default [] heights)))) /\
    heap w2' = set_heights (heap w2) (take n (zip figs (drop i (default [] heights)))).
Proof.
  induction figs as [|fig rest IH]; intros i w1 w2 r1 w1' r2 w2' Hsame Hf Hw;
    cbn [write_figs].
  - intros [= <- <-] [= <- <-]. split; [reflexivity |].
    split; [exists []; now rewrite !app_nil_r |]. split; [exact Hf |]. now exists 0.
  - rewrite !bind_run.
    destruct (loop_body fname js sep heights i fig w1) as [b1 v1] eqn:Hb1.
    destruct (loop_body fname js sep heights i fig w2) as [b2 v2] eqn:Hb2.
    cbn [fst snd].
    destruct (loop_body_alike fname js sep heights i fig rest w1 w2 b1 v1 b2 v2
                (Hsame 0 fig eq_refl) Hf Hw Hb1 Hb2)
      as (-> & (evs & He1 & He2) & Hfl & n & Hn1 & Hn2).
    destruct b2 as [[]|e].
    + apply loop_body_ok in Hb1
        as (f1 & _ & _ & Hf1 & _ & Hheap1 & _ & _ & _ & _ & Hwf1).
      apply loop_body_ok in Hb2
        as (f2 & _ & _ & Hf2 & _ & Hheap2 & _ & _ & _ & _ & Hwf2).
      intros H1 H2.
      destruct (IH (S i) v1 v2 r1 w1' r2 w2') as (Hr & (evs' & He1' & He2') & Hfl' & n' & Hn1' & Hn2');
        try assumption.
      { intros j l Hl. rewrite Hheap1, Hheap2.
        rewrite <- (figure_at_S _ _ _ _ _ _ _ _ Hf1), <- (figure_at_S _ _ _ _ _ _ _ _ Hf2).
        now apply (Hsame (S j)). }
      { now rewrite Hwf1, Hwf2. }
      split; [exact Hr |].
      split; [exists (evs ++ evs'); rewrite He1', He2', He1, He2; now rewrite !app_assoc |].
      split; [exact Hfl' |].
      destruct (default [] heights !! i) as [ht|] eqn:Hi.
      * exists (S n'). rewrite Hn1', Hn2', Hheap1, Hheap2, (drop_S _ _ _ Hi). cbn.
        now rewrite (alter_with_height _ _ _ _ Hf1), (alter_with_height _ _ _ _ Hf2).
      * exists 0. rewrite Hn1', Hn2', Hheap1, Hheap2. apply lookup_ge_None in Hi.
        rewrite drop_ge by lia. rewrite zip_nil_r. now rewrite take_nil.
    + intros [= <- <-] [= <- <-]. split; [reflexivity |].
      split; [eauto |]. split; [exact Hfl |]. eauto.
Qed.

Lemma combine_alike `{Library} figs fname js sep auto_open heights w1 w2 r1 w1' r2 w2' :
  same_figures (heap w1) (heap w2) figs (default [] heights) ->
  write_fault w1 !! fname = write_fault w2 !! fname ->
  combine_plotly_figs_to_html figs fname js sep auto_open heights w1 = (r1, w1') ->
  combine_plotly_figs_to_html figs fname js sep auto_open heights w2 = (r2, w2') ->
  r1 = r2 /\
  (exists evs, events w1' = events w1 ++ evs /\ events w2' = events w2 ++ evs) /\
  ((forall e, write_fault w1 !! fname <> Some (AtOpen e)) ->
   files w1' !! fname = files w2' !! fname) /\
  exists n,
    heap w1' = set_heights (heap w1) (take n (zip figs (default [] heights))) /\
    heap w2' = set_heights (heap w2) (take n (zip figs (default [] heights))).
Proof.
  intros Hsame Hw. unfold combine_plotly_figs_to_html. rewrite !bind_run.
  unfold open_write. rewrite Hw.
  destruct (write_fault w2 !! fname) as [flt|] eqn:Hw2.
  1: destruct flt as [e|e].
  1: { cbn [fst snd]. intros [= <- <-] [= <- <-]. split; [reflexivity |].
       split; [eexists; split; reflexivity |].
       split; [intros Hno; now destruct (Hno e) |]. now exists 0. }
  all: cbn [fst snd];
    set (v1 := log (set_files w1 (<[fname := EmptyString]> (files w1)))
                   (EvOpen fname ModeWrite None));
    set (v2 := log (set_files w2 (<[fname := EmptyString]> (files w2)))
                   (EvOpen fname ModeWrite None));
    destruct (write_figs fname js sep heights 0 figs v1) as [b1 u1] eqn:Hb1;
    destruct (write_figs fname js sep heights 0 figs v2) as [b2 u2] eqn:Hb2;
    destruct (write_figs_alike fname js sep heights figs 0 v1 v2 b1 u1 b2 u2)
      as (-> & (evs & He1 & He2) & Hfl & n & Hn1 & Hn2);
    [exact Hsame | cbn; now rewrite !lookup_insert_eq | cbn; now rewrite Hw, Hw2
    | exact Hb1 | exact Hb2 |];
    cbn [fst snd];
    (destruct b2 as [[]|e']; [destruct auto_open |]);
    cbn [webbrowser_open ret];
    intros [= <- <-] [= <- <-];
    (split; [reflexivity |]);
    (split; [cbn [events log]; rewrite He1, He2; cbn [events log v1 v2];
             rewrite <- ?app_assoc; eexists; split; reflexivity |]);
    (split; [intros _; exact Hfl |]);
    exists n; cbn [heap log]; split; assumption.
Qed.

Lemma same_figures_data (h1 h2 : gmap loc Figure) figs (hs : list Z) :
  (forall j fig, figs !! j = Some fig -> fig_data <$> h1 !! fig = fig_data <$> h2 !! fig) ->
  (forall j fig, figs !! j = Some fig -> length hs <= j -> h1 !! fig = h2 !! fig) ->
  same_figures h1 h2 figs hs.
Proof.
  intros Hdata Hrest j fig Hj.
  destruct (hs !! j) as [ht|] eqn:Hh.
  - specialize (Hdata j fig Hj).
    destruct (h1 !! fig) as [g1|] eqn:Hg1, (h2 !! fig) as [g2|] eqn:Hg2;
      cbn in Hdata; try discriminate.
    + rewrite (figure_at_height _ _ _ _ _ _ _ Hj Hh Hg1),
        (figure_at_height _ _ _ _ _ _ _ Hj Hh Hg2).
      unfold with_height. now injection Hdata as ->.
    + unfold figure_at. now rewrite !set_heights_lookup, Hg1, Hg2.
  - rewrite !figure_at_beyond by assumption. rewrite !set_heights_lookup.
    apply lookup_ge_None in Hh. now rewrite (Hrest j fig Hj Hh).
Qed.

(** The layout height a figure has before the call is of no consequence if
    [heights] has an entry for every index the figure is at: from two states
    whose figures differ only in such heights, and in which the file is
    equally writable, the call ends the same way, makes the same calls with
    the same results, and leaves the same text in the file. *)
Theorem combine_ignores_old_heights `{Library} (figs : list loc) (fname : string)
    (js : IncludeJs) (sep : option string) (auto_open : bool) (heights : option (list Z))
    (w1 w2 : World) :
  (forall j fig, figs !! j = Some fig ->
     fig_data <$> heap w1 !! fig = fig_data <$> heap w2 !! fig) ->
  (forall j fig, figs !! j = Some fig -> py_len heights <= j ->
     heap w1 !! fig = heap w2 !! fig) ->
  write_fault w1 !! fname = write_fault w2 !! fname ->
  let run1 := combine_plotly_figs_to_html figs fname js sep auto_open heights w1 in
  let run2 := combine_plotly_figs_to_html figs fname js sep auto_open heights w2 in
  run1.1 = run2.1 /\
  (exists evs, events run1.2 = events w1 ++ evs /\ events run2.2 = events w2 ++ evs) /\
  ((forall e, write_fault w1 !! fname <> Some (AtOpen e)) ->
   files run1.2 !! fname = files run2.2 !! fname).
Proof.
  intros Hdata Hrest Hw run1 run2.
  destruct (combine_alike figs fname js sep auto_open heights w1 w2
              run1.1 run1.2 run2.1 run2.2) as (Hr & Hev & Hfl & _).
  - apply same_figures_data; [exact Hdata | exact Hrest].
  - exact Hw.
  - apply surjective_pairing.
  - apply surjective_pairing.
  - now split.
Qed.

Lemma combine_ignores_old_heights_witness :
  let w2 := set_heap demo_world
              (<[1%positive := mkFigure "fig1" (Some 999%Z)]> (heap demo_world)) in
  let run1 := combine_plotly_figs_to_html [1; 2; 3]%positive "combined.html" JsCdn
                (Some "<hr>") false (Some [400; 200]%Z) demo_world in
  let run2 := combine_plotly_figs_to_html [1; 2; 3]%positive "combined.html" JsCdn
                (Some "<hr>") false (Some [400; 200]%Z) w2 in
  run1.1 = run2.1 /\
  (exists evs, events run1.2 = events demo_world ++ evs /\ events run2.2 = events w2 ++ evs) /\
  ((forall e, write_fault demo_world !! "combined.html" <> Some (AtOpen e)) ->
   files run1.2 !! "combined.html" = files run2.2 !! "combined.html").
Proof.
  intros w2.
  apply (@combine_ignores_old_heights demo_library [1; 2; 3]%positive "combined.html" JsCdn
           (Some "<hr>") false (Some [400; 200]%Z) demo_world w2).
  - intros [|[|[|j]]] fig [= <-]; reflexivity.
  - intros [|[|[|j]]] fig [= <-] Hlen; [cbn in Hlen; lia .. | reflexivity].
  - reflexivity.
Defined.


(** ** What the calls leave alone *)

(** [convert_logo] only reads: it leaves the files, the figures and the
    faults as they are, and makes two calls at most, the [open] of the file
    for reading bytes and the [read].  When the read returns, so does
    [convert_logo]: the decoding of the base64 text never fails. *)
Theorem convert_logo_read_only (path : string) (w : World) :
  let run := convert_logo path w in
  files run.2 = files w /\ heap run.2 = heap w /\
  read_fault run.2 = read_fault w /\ write_fault run.2 = write_fault w /\
  ((exists e, run.1 = Raise e /\
      events run.2 = events w ++ [EvOpen path ModeReadBinary (Some e)])
   \/
   (exists c r, files w !! path = Some c /\
      events run.2 = events w ++ [EvOpen path ModeReadBinary None; EvRead path r] /\
      match r with
      | Ok c' => c' = c /\ is_ok run.1 = true
      | Raise e => run.1 = Raise e
      end)).
Proof.
  cbv zeta. unfold convert_logo, read_bytes, bind, read_file.
  destruct (read_fault w !! path) as [[e|e]|], (files w !! path) as [c|];
    cbn [ret fst snd files heap read_fault write_fault events log];
    rewrite ?decode_b64encode;
    cbn [lift ret fst snd files heap read_fault write_fault events log];
    do 4 (split; [reflexivity |]);
    rewrite <- ?app_assoc;
    try (left; eexists; split; reflexivity).
  - right. exists c, (Raise e). repeat split.
  - right. exists c, (Ok c). repeat split.
Qed.

Lemma keeps_to_ret {A} P path (a : A) : keeps_to P path (ret a).
Proof.
  intros w. split; [exists []; split; [now rewrite app_nil_r | constructor] |].
  repeat split.
Qed.

Lemma keeps_to_bind {A B} P path (m : M A) (k : A -> M B) :
  keeps_to P path m -> (forall a, keeps_to P path (k a)) -> keeps_to P path (bind m k).
Proof.
  intros Hm Hk w. unfold bind.
  destruct (Hm w) as ((evs1 & Hev1 & Hall1) & Hf1 & Hr1 & Hw1).
  destruct (m w) as [[a|e] w1]; cbn [fst snd] in *; [|split; eauto].
  destruct (Hk a w1) as ((evs2 & Hev2 & Hall2) & Hf2 & Hr2 & Hw2).
  split; [exists (evs1 ++ evs2); split; [now rewrite Hev2, Hev1, <- app_assoc | now apply Forall_app] |].
  split; [intros p Hp; now rewrite Hf2, Hf1 |]. split; congruence.
Qed.

Lemma keeps_to_convert_logo :
  keeps_to cell_event "combined.html" (convert_logo "yhat.png").
Proof.
  intros w. unfold convert_logo, read_bytes, bind, read_file.
  destruct (read_fault w !! "yhat.png") as [[e|e]|], (files w !! "yhat.png") as [c|];
    cbn [ret fst snd files heap read_fault write_fault events log];
    rewrite ?decode_b64encode;
    cbn [lift ret fst snd files heap read_fault write_fault events log];
    rewrite <- ?app_assoc;
    (split; [eexists; split; [reflexivity | repeat constructor] |]);
    repeat split.
Qed.

Lemma keeps_to_add_html_header logo title :
  keeps_to cell_event "combined.html" (add_html_header "combined.html" logo title).
Proof.
  intros w. unfold add_html_header, read_text, bind, read_file, open_write, write.
  destruct (read_fault w !! "combined.html") as [[e1|e1]|] eqn:Hr,
           (files w !! "combined.html") as [c1|] eqn:Hf;
    cbn [fst snd log set_files write_fault read_fault files heap events];
    [| | | | destruct (write_fault w !! "combined.html") as [[e2|e2]|] eqn:Hw;
             cbn [fst snd log set_files write_fault read_fault files heap events]; rewrite ?Hw;
             cbn [fst snd log set_files write_fault read_fault files heap events] |];
    rewrite <- ?app_assoc;
    (split; [eexists; split; [reflexivity | repeat constructor] |]);
    (split; [intros p Hp; rewrite ?lookup_insert_ne by congruence; reflexivity |]);
    split; reflexivity.
Qed.

Lemma loop_event_cell (ev : Event) :
  loop_event "combined.html" ev = true -> cell_event ev = true.
Proof. destruct ev as [p m err| | | | |]; cbn; try discriminate; auto. Qed.

Lemma keeps_to_combine `{Library} figs js sep heights :
  keeps_to cell_event "combined.html"
    (combine_plotly_figs_to_html figs "combined.html" js sep false heights).
Proof.
  intros w.
  destruct (combine_trace figs "combined.html" js sep false heights w)
    as (Hr & Hw & [(e & He & Hres & Hfiles & Hev) | (Hne & evs & Hall & Hfiles & Hev)]).
  - split; [eexists; split; [exact Hev | repeat constructor] |].
    split; [intros p _; now rewrite Hfiles |]. now split.
  - split.
    + eexists. split; [exact Hev |]. cbn [andb]. rewrite app_nil_r.
      constructor; [reflexivity |].
      eapply Forall_impl; [exact Hall | apply loop_event_cell].
    + split; [intros p Hp; rewrite Hfiles; apply lookup_insert_ne; congruence |]. now split.
Qed.

(** Whatever happens, the last cell of the notebook writes no file but
    [combined.html], changes no fault, opens [yhat.png] only for reading,
    and opens no browser. *)
Theorem notebook_cell_frame `{Library} (fig1 fig2 fig3 : loc) (w : World) :
  let run := notebook_cell fig1 fig2 fig3 w in
  (exists evs, events run.2 = events w ++ evs /\ Forall (fun ev => cell_event ev = true) evs) /\
  (forall p, p <> "combined.html" -> files run.2 !! p = files w !! p) /\
  read_fault run.2 = read_fault w /\ write_fault run.2 = write_fault w.
Proof.
  revert w. change (keeps_to cell_event "combined.html" (notebook_cell fig1 fig2 fig3)).
  unfold notebook_cell.
  apply keeps_to_bind; [apply keeps_to_combine |]. intros _.
  apply keeps_to_bind; [apply keeps_to_convert_logo |]. intros logo.
  apply keeps_to_add_html_header.
Qed.

(** ** When the loop raises *)

Lemma serialize_raises `{Library} fname js sep i fig w e w' c :
  (if Nat.eqb i 0 then
     s <- fig_to_html fig true js ;;
     write fname s
   else
     (if truthy_str sep then write fname (default EmptyString sep) else ret tt) ;;;
     s <- fig_to_html fig false (JsBool false) ;;
     write fname s) w = (Raise e, w') ->
  write_fault w !! fname = None -> files w !! fname = Some c ->
  files w' !! fname = Some (c +:+ piece sep i EmptyString) /\
  match heap w !! fig with
  | None => e = AttributeError fig
  | Some f => to_html f (Nat.eqb i 0) (js_arg js i) = Raise e
  end.
Proof.
  intros Hrun Hw Hf. revert Hrun. unfold piece, js_arg.
  rewrite <- (sep_text sep).
  destruct (Nat.eqb i 0); [|destruct (truthy_str sep)];
    unfold bind, fig_to_html, write, ret;
    repeat (progress (cbn [write_fault heap files events log set_files set_heap fst snd default];
                      rewrite ?Hw, ?lookup_insert_eq, ?Hf));
    destruct (heap w !! fig) as [f|]; try destruct (to_html f _ _) as [d|e'];
    repeat (progress (cbn [write_fault heap files events log set_files set_heap fst snd default];
                      rewrite ?Hw, ?lookup_insert_eq, ?Hf));
    intros [= <- <-];
    cbn [write_fault heap files events log set_files set_heap fst snd default];
    rewrite ?lookup_insert_eq, ?Hf, ?app_nil_r_s; split; reflexivity.
Qed.

Lemma loop_body_raises `{Library} fname js sep heights i fig w e w' c :
  loop_body fname js sep heights i fig w = (Raise e, w') ->
  write_fault w !! fname = None -> files w !! fname = Some c ->
  exists tail, files w' !! fname = Some (c +:+ tail) /\
    ((heap w !! fig = None /\ e = AttributeError fig /\
      tail = match default [] heights !! i with
             | Some _ => EmptyString
             | None => piece sep i EmptyString
             end)
     \/
     (exists ht, default [] heights !! i = Some ht /\ is_Some (heap w !! fig) /\
        validate_height ht = Some e /\ tail = EmptyString)
     \/
     (exists f0, heap w !! fig = Some f0 /\
        (forall ht, default [] heights !! i = Some ht -> validate_height ht = None) /\
        to_html (match default [] heights !! i with
                 | Some ht => with_height f0 ht
                 | None => f0
                 end) (Nat.eqb i 0) (js_arg js i) = Raise e /\
        tail = piece sep i EmptyString)).
Proof.
  unfold loop_body. rewrite height_step, bind_run.
  destruct (default [] heights !! i) as [ht|] eqn:Hi.
  - unfold update_layout. destruct (heap w !! fig) as [f0|] eqn:Hf0.
    + destruct (validate_height ht) as [e'|] eqn:Hv; cbn [fst snd].
      * intros [= <- <-] Hw Hf. exists EmptyString.
        split; [cbn; now rewrite Hf, app_nil_r_s |]. right. left. eauto 10.
      * intros Hrun Hw Hf. apply (serialize_raises _ _ _ _ _ _ _ _ c) in Hrun as [Hfl Hc];
          [|exact Hw | exact Hf].
        cbn [heap log set_heap] in Hc. rewrite lookup_insert_eq in Hc.
        exists (piece sep i EmptyString). split; [exact Hfl |]. right. right.
        exists f0. split; [reflexivity |]. split; [now intros ? [= <-] |]. now split.
    + cbn [fst snd]. intros [= <- <-] Hw Hf. exists EmptyString.
      split; [cbn; now rewrite Hf, app_nil_r_s |]. left. now split.
  - cbn [ret fst snd]. intros Hrun Hw Hf.
    apply (serialize_raises _ _ _ _ _ _ _ _ c) in Hrun as [Hfl Hc]; [|exact Hw | exact Hf].
    exists (piece sep i EmptyString). split; [exact Hfl |].
    destruct (heap w !! fig) as [f0|].
    + right. right. exists f0. split; [reflexivity |]. split; [discriminate |]. now split.
    + left. now split.
Qed.

Lemma write_figs_raises `{Library} fname js sep heights figs : forall i w e w' c,
  write_figs fname js sep heights i figs w = (Raise e, w') ->
  write_fault w !! fname = None -> files w !! fname = Some c ->
  exists k fig docs tail,
    figs !! k = Some fig /\ length docs = k /\
    (forall j d, docs !! j = Some d ->
       exists l f, figs !! j = Some l /\
         figure_at (heap w) figs (drop i (default [] heights)) j l = Some f /\
         to_html f (Nat.eqb (i + j) 0) (js_arg js (i + j)) = Ok d) /\
    files w' !! fname = Some (c +:+ text_from sep i docs +:+ tail) /\
    ((figure_at (heap w) figs (drop i (default [] heights)) k fig = None /\
      e = AttributeError fig /\
      tail = match default [] heights !! (i + k) with
             | Some _ => EmptyString
             | None => piece sep (i + k) EmptyString
             end)
     \/
     (exists ht, default [] heights !! (i + k) = Some ht /\
        is_Some (figure_at (heap w) figs (drop i (default [] heights)) k fig) /\
        validate_height ht = Some e /\ tail = EmptyString)
     \/
     (exists f, figure_at (heap w) figs (drop i (default [] heights)) k fig = Some f /\
        (forall ht, default [] heights !! (i + k) = Some ht -> validate_height ht = None) /\
        to_html f (Nat.eqb (i + k) 0) (js_arg js (i + k)) = Raise e /\
        tail = piece sep (i + k) EmptyString)).
Proof.
  induction figs as [|fig rest IH]; intros i w e w' c; cbn [write_figs]; [discriminate |].
  rewrite bind_run.
  destruct (loop_body fname js sep heights i fig w) as [[[]|e1] w1] eqn:Hb; cbn [fst snd].
  - intros Hrest Hw Hf.
    apply loop_body_ok in Hb
      as (f0 & d & _ & Hf0 & Hd & Hheap & _ & _ & Hfiles & _ & Hwf).
    rewrite Hf in Hfiles. cbn [default] in Hfiles.
    destruct (IH (S i) w1 e w' (c +:+ piece sep i d) Hrest)
      as (k & l & docs & tail & Hl & Hlen & Hdocs & Hfl & Hcause).
    { now rewrite Hwf. }
    { rewrite Hfiles. apply lookup_insert_eq. }
    assert (Hat : forall j x, figure_at (heap w1) rest (drop (S i) (default [] heights)) j x
                              = figure_at (heap w) (fig :: rest) (drop i (default [] heights)) (S j) x).
    { intros j x. now rewrite Hheap, (figure_at_S _ _ _ _ _ _ _ _ Hf0). }
    exists (S k), l, (d :: docs), tail.
    split; [exact Hl |]. split; [cbn; now rewrite Hlen |].
    split; [|split].
    + intros [|j] d' Hd'.
      * injection Hd' as <-. exists fig. eexists. split; [reflexivity |].
        rewrite (figure_at_0 _ _ _ _ _ _ Hf0), Nat.add_0_r. split; [reflexivity | exact Hd].
      * destruct (Hdocs j d' Hd') as (x & f & Hx & Hfx & Hdx).
        exists x, f. split; [exact Hx |]. rewrite <- Hat, Nat.add_succ_r. now split.
    + rewrite Hfl. cbn [text_from]. now rewrite !app_assoc_s.
    + rewrite !Hat in Hcause. rewrite Nat.add_succ_r. exact Hcause.
  - intros [= <- <-] Hw Hf.
    destruct (loop_body_raises _ _ _ _ _ _ _ _ _ c Hb Hw Hf) as (tail & Hfl & Hcause).
    exists 0, fig, [], tail. split; [reflexivity |]. split; [reflexivity |].
    split; [intros j d [=] |]. split; [exact Hfl |].
    rewrite Nat.add_0_r, figure_at_0_lookup.
    destruct Hcause as [(Hnone & -> & ->) | [(ht & Hi & Hsome & Hv & ->) | (f0 & Hf0 & Hv & Hd & ->)]].
    + left. rewrite Hnone. now split.
    + right. left. exists ht. rewrite Hi. destruct Hsome as [f0 ->]. eauto.
    + right. right. rewrite Hf0. eexists. split; [reflexivity |]. now split.
Qed.

(** When the call raises in the loop: there is an index [k] at which it
    stopped.  The file then holds what the iterations before [k] wrote, the
    first figure as a document and the others as fragments after the
    separator, followed by a dangling separator if [k > 0] and it was
    [to_html] that failed: the separator is written before the figure is
    serialized.  The error is [AttributeError] for an object that is no
    figure, and otherwise the one plotly raised for the height or in
    [to_html]. *)
Theorem combine_stops `{Library} (figs : list loc) (fname : string) (js : IncludeJs)
    (sep : option string) (auto_open : bool) (heights : option (list Z)) (w : World)
    (e : Exn) :
  write_fault w !! fname = None ->
  (combine_plotly_figs_to_html figs fname js sep auto_open heights w).1 = Raise e ->
  exists k fig docs tail,
    figs !! k = Some fig /\ length docs = k /\
    (forall j d, docs !! j = Some d ->
       exists l f, figs !! j = Some l /\
         figure_at (heap w) figs (default [] heights) j l = Some f /\
         to_html f (Nat.eqb j 0) (js_arg js j) = Ok d) /\
    stops_at js sep (heap w) figs (default [] heights) k fig e tail /\
    files (combine_plotly_figs_to_html figs fname js sep auto_open heights w).2 !! fname
    = Some (text_from sep 0 docs +:+ tail).
Proof.
  intros Hw. unfold combine_plotly_figs_to_html. rewrite !bind_run.
  unfold open_write. rewrite Hw. cbn [fst snd].
  set (w0 := log (set_files w (<[fname := EmptyString]> (files w)))
                 (EvOpen fname ModeWrite None)).
  destruct (write_figs fname js sep heights 0 figs w0) as [[[]|e1] w1] eqn:Hfigs;
    cbn [fst snd].
  - now destruct auto_open.
  - intros [= ->].
    destruct (write_figs_raises fname js sep heights figs 0 w0 e w1 EmptyString Hfigs)
      as (k & fig & docs & tail & Hk & Hlen & Hdocs & Hfl & Hcause).
    { exact Hw. }
    { apply lookup_insert_eq. }
    exists k, fig, docs, tail. split; [exact Hk |]. split; [exact Hlen |].
    split; [exact Hdocs |]. split; [exact Hcause | exact Hfl].
Qed.

Lemma combine_stops_witness :
  exists k fig docs tail,
    [1; 4; 3]%positive !! k = Some fig /\ length docs = k /\
    (forall j d, docs !! j = Some d ->
       exists l f, [1; 4; 3]%positive !! j = Some l /\
         figure_at (heap demo_world) [1; 4; 3]%positive [400%Z] j l = Some f /\
         to_html f (Nat.eqb j 0) (js_arg JsCdn j) = Ok d) /\
    stops_at JsCdn (Some "<hr>") (heap demo_world) [1; 4; 3]%positive [400%Z] k fig
      (LibraryError "to_html") tail /\
    files (combine_plotly_figs_to_html [1; 4; 3]%positive "combined.html" JsCdn (Some "<hr>")
             false (Some [400%Z]) demo_world).2 !! "combined.html"
    = Some (text_from (Some "<hr>") 0 docs +:+ tail).
Proof.
  apply (@combine_stops demo_library [1; 4; 3]%positive "combined.html" JsCdn (Some "<hr>")
           false (Some [400%Z]) demo_world (LibraryError "to_html")); reflexivity.
Defined.
